(** * The "fx" Force-eXecution PCI device (hw/misc/fx.c)

    A shallow embedding of the device model: the interrupt line
    ([fx_raise_irq], [fx_lower_irq]), the register file ([fx_mmio_read],
    [fx_mmio_write]), the forcer thread ([wait_device_driver],
    [fx_forcer_thread]), the configuration server callbacks and the
    realize / uninit life cycle, followed by the properties of the
    device that are checked against it.

    The device object is shared by two threads, so the program is embedded
    as explicit state passing over one system state [Sys]: every C function
    becomes a computation in the monad [M], where [None] means that the
    calling thread cannot proceed now (it blocks on a mutex, on the
    condition variable, or on a join).  The forcer thread is cut at its
    statements: one scheduling step runs the statement at its program
    counter.  The interrupt mask is read and written by the forcer thread
    and by the guest's acknowledge write with no lock in common, so
    [fx_raise_irq] and [fx_lower_irq] are cut further, at every load and
    store of the shared state, when they run inside a thread. *)

From Stdlib Require Import ZArith List Bool Lia.
Import ListNotations.
Open Scope Z_scope.

(** ** Machine integers *)

(** [uint32_t] and [unsigned int]: values reduced modulo 2^32. *)
Definition u32 (x : Z) : Z := x mod 2 ^ 32.

(** [uint64_t] and [hwaddr]. *)
Definition u64 (x : Z) : Z := x mod 2 ^ 64.

(** [~x] on a [uint32_t]. *)
Definition not32 (x : Z) : Z := u32 (Z.lnot x).

(** [~0ULL]. *)
Definition ALL_ONES : Z := u64 (Z.lnot 0).

(** ** Constants of the source *)

Definition ID_REGISTER : Z := 0x00.
Definition CARD_LIVENESS_REGISTER : Z := 0x04.
Definition SCHEDULE_NEXT_REGISTER : Z := 0x08.
Definition INTERRUPT_STATUS_REGISTER : Z := 0x24.
Definition START_THREAD_REGISTER : Z := 0x30.
Definition INTERRUPT_RAISE_REGISTER : Z := 0x60.
Definition INTERRUPT_ACK_REGISTER : Z := 0x64.

Definition CONF_INTERVAL_DEFAULT : Z := 10.

(** glib's [G_USEC_PER_SEC] (microseconds per second); the header that
    defines it is not part of the device source. *)
Definition G_USEC_PER_SEC : Z := 1000000.

(** ** Data model *)

Inductive thread_id := Iothread | Forcer.

Definition thread_eqb (a b : thread_id) : bool :=
  match a, b with
  | Iothread, Iothread | Forcer, Forcer => true
  | _, _ => false
  end.

(** The part of [PCIDevice pdev] that the device model drives: whether the
    guest has MSI enabled, the level of the INTx pin, and the MSI messages
    sent so far (vector numbers, newest first). *)
Record PCIDevice := mkPCIDevice {
  msi_on : bool;
  intx_level : Z;
  msi_log : list Z
}.

(** [struct FxState].  A mutex is its owner, the condition variable is the
    list of threads blocked in [qemu_cond_wait]. *)
Record FxState := mkFxState {
  pdev : PCIDevice;
  thr_mutex : option thread_id;
  thr_cond : list thread_id;
  stopping : bool;
  irq_status : Z;
  card_liveness : Z;
  conf_mutex : option thread_id;
  conf_sleep_interval : Z;
  listen_fd : Z;
  conn_fd : Z
}.

(** Program points of the forcer thread, named by source line.  [L175w]
    and [L205w] are the inside of [qemu_cond_wait]: the thread has released
    the mutex and waits to be signalled and to take the mutex again.
    [L203] is the call of [fx_raise_irq] up to the load of
    [fx->irq_status] in line 95; [L95s] is the store of line 95, and
    [L96], [L97], [L98], [L100] are the lines of [fx_raise_irq] that
    follow. *)
Inductive label :=
| NotCreated
| L174 | L175 | L175w | L176
| L191 | L193 | L194 | L195 | L197
| L202 | L203 | L95s | L96 | L97 | L98 | L100
| L205 | L205w | L207 | L208 | L212
| L217.

(** The forcer thread: program counter, the locals [interval] and
    [*(unsigned int * )buf], and the register [acc] that holds the mask
    between the load and the store of line 95. *)
Record ForcerThread := mkForcer {
  pc : label;
  interval : Z;
  buf : Z;
  acc : Z
}.

(** Program points of an acknowledge write inside [fx_lower_irq]: none in
    flight, the store of line 107 (the load was done), the test of line
    109, the call of line 110. *)
Inductive ack_label := AIdle | A107s | A109 | A110.

(** The acknowledge write in flight on the thread that dispatches
    register accesses: program counter, the argument [val] of
    [fx_lower_irq], and the register that holds the mask between the load
    and the store of line 107. *)
Record Access := mkAccess {
  apc : ack_label;
  aval : Z;
  areg : Z
}.

Inductive callback := accept_cb | read_cb.

(** Where the iothread stands in the device's life: realized, inside
    [pci_fx_uninit] before line 325 or before line 326, or unplugged. *)
Inductive phase := Unrealized | Realized | U325 | U326 | Unplugged.

(** The iothread's side: life cycle, the fd handlers registered with
    [qemu_set_fd_handler], and the open descriptors. *)
Record Reactor := mkReactor {
  life : phase;
  fd_handlers : list (Z * callback);
  open_fds : list Z
}.

Record Sys := mkSys {
  fx : FxState;
  thr : ForcerThread;
  io : Reactor;
  access : Access
}.

(** ** The monad of device code *)

Definition M (A : Type) : Type := Sys -> option (A * Sys).

Definition ret {A} (a : A) : M A := fun s => Some (a, s).

Definition bind {A B} (m : M A) (k : A -> M B) : M B :=
  fun s => match m s with
           | Some (a, s') => k a s'
           | None => None
           end.

Definition blocked {A} : M A := fun _ => None.

Definition gets {A} (f : FxState -> A) : M A := fun s => Some (f (fx s), s).

(** A thread reads one of its own registers. *)
Definition reads {A} (f : Sys -> A) : M A := fun s => Some (f s, s).

Definition modify_fx (f : FxState -> FxState) : M unit :=
  fun s => Some (tt, mkSys (f (fx s)) (thr s) (io s) (access s)).

Definition modify_thr (f : ForcerThread -> ForcerThread) : M unit :=
  fun s => Some (tt, mkSys (fx s) (f (thr s)) (io s) (access s)).

Definition modify_io (f : Reactor -> Reactor) : M unit :=
  fun s => Some (tt, mkSys (fx s) (thr s) (f (io s)) (access s)).

Definition modify_access (f : Access -> Access) : M unit :=
  fun s => Some (tt, mkSys (fx s) (thr s) (io s) (f (access s))).

Declare Scope fx_scope.
Delimit Scope fx_scope with fx.
Notation "x <- m ;; k" := (bind m (fun x => k))
  (at level 61, m at next level, right associativity) : fx_scope.
Notation "m ;; k" := (bind m (fun _ => k))
  (at level 61, right associativity) : fx_scope.
Open Scope fx_scope.

(** Field updates. *)

Definition with_pdev (p : PCIDevice) (f : FxState) : FxState :=
  mkFxState p (thr_mutex f) (thr_cond f) (stopping f) (irq_status f)
    (card_liveness f) (conf_mutex f) (conf_sleep_interval f) (listen_fd f)
    (conn_fd f).
Definition with_thr_mutex (o : option thread_id) (f : FxState) : FxState :=
  mkFxState (pdev f) o (thr_cond f) (stopping f) (irq_status f)
    (card_liveness f) (conf_mutex f) (conf_sleep_interval f) (listen_fd f)
    (conn_fd f).
Definition with_thr_cond (w : list thread_id) (f : FxState) : FxState :=
  mkFxState (pdev f) (thr_mutex f) w (stopping f) (irq_status f)
    (card_liveness f) (conf_mutex f) (conf_sleep_interval f) (listen_fd f)
    (conn_fd f).
Definition with_stopping (b : bool) (f : FxState) : FxState :=
  mkFxState (pdev f) (thr_mutex f) (thr_cond f) b (irq_status f)
    (card_liveness f) (conf_mutex f) (conf_sleep_interval f) (listen_fd f)
    (conn_fd f).
Definition with_irq_status (v : Z) (f : FxState) : FxState :=
  mkFxState (pdev f) (thr_mutex f) (thr_cond f) (stopping f) v
    (card_liveness f) (conf_mutex f) (conf_sleep_interval f) (listen_fd f)
    (conn_fd f).
Definition with_card_liveness (v : Z) (f : FxState) : FxState :=
  mkFxState (pdev f) (thr_mutex f) (thr_cond f) (stopping f) (irq_status f)
    v (conf_mutex f) (conf_sleep_interval f) (listen_fd f) (conn_fd f).
Definition with_conf_mutex (o : option thread_id) (f : FxState) : FxState :=
  mkFxState (pdev f) (thr_mutex f) (thr_cond f) (stopping f) (irq_status f)
    (card_liveness f) o (conf_sleep_interval f) (listen_fd f) (conn_fd f).
Definition with_conf_sleep_interval (v : Z) (f : FxState) : FxState :=
  mkFxState (pdev f) (thr_mutex f) (thr_cond f) (stopping f) (irq_status f)
    (card_liveness f) (conf_mutex f) v (listen_fd f) (conn_fd f).
Definition with_listen_fd (v : Z) (f : FxState) : FxState :=
  mkFxState (pdev f) (thr_mutex f) (thr_cond f) (stopping f) (irq_status f)
    (card_liveness f) (conf_mutex f) (conf_sleep_interval f) v (conn_fd f).
Definition with_conn_fd (v : Z) (f : FxState) : FxState :=
  mkFxState (pdev f) (thr_mutex f) (thr_cond f) (stopping f) (irq_status f)
    (card_liveness f) (conf_mutex f) (conf_sleep_interval f) (listen_fd f) v.

Definition goto (l : label) : M unit :=
  modify_thr (fun t => mkForcer l (interval t) (buf t) (acc t)).

Definition set_acc (v : Z) : M unit :=
  modify_thr (fun t => mkForcer (pc t) (interval t) (buf t) v).

(** ** Threads primitives

    Modelled from the spec: the QEMU thread primitives are not part of the
    device source.  A lock blocks while another thread owns the mutex; the
    condition wait releases the mutex, blocks until a signal removes the
    thread from the waiters, and takes the mutex again; a signal wakes one
    waiter and is lost when nobody waits. *)

Inductive mutex_id := THR_MUTEX | CONF_MUTEX.

Definition owner (m : mutex_id) (f : FxState) : option thread_id :=
  match m with THR_MUTEX => thr_mutex f | CONF_MUTEX => conf_mutex f end.

Definition with_owner (m : mutex_id) (o : option thread_id) : FxState -> FxState :=
  match m with THR_MUTEX => with_thr_mutex o | CONF_MUTEX => with_conf_mutex o end.

Definition qemu_mutex_lock (t : thread_id) (m : mutex_id) : M unit :=
  o <- gets (owner m) ;;
  match o with
  | None => modify_fx (with_owner m (Some t))
  | Some _ => blocked
  end.

Definition qemu_mutex_unlock (m : mutex_id) : M unit :=
  modify_fx (with_owner m None).

Definition qemu_cond_signal : M unit :=
  modify_fx (fun f => with_thr_cond (tl (thr_cond f)) f).

Definition waiting (t : thread_id) (f : FxState) : bool :=
  existsb (thread_eqb t) (thr_cond f).

(** First half of [qemu_cond_wait(&fx->thr_cond, &fx->thr_mutex)]. *)
Definition cond_wait_sleep (t : thread_id) : M unit :=
  modify_fx (fun f => with_thr_cond (thr_cond f ++ [t]) f) ;;
  qemu_mutex_unlock THR_MUTEX.

(** Second half: return once signalled, with the mutex held again. *)
Definition cond_wait_wake (t : thread_id) : M unit :=
  w <- gets (waiting t) ;;
  if w then blocked else qemu_mutex_lock t THR_MUTEX.

(** ** Interrupt line *)

Definition fx_msi_enabled : M bool := gets (fun f => msi_on (pdev f)).

(** Modelled from the spec: [msi_notify] of the PCI core, which is not part
    of the device source, sends one message-style notification for the
    vector. *)
Definition msi_notify (vector : Z) : M unit :=
  modify_fx (fun f =>
    with_pdev (mkPCIDevice (msi_on (pdev f)) (intx_level (pdev f))
                 (vector :: msi_log (pdev f))) f).

(** Modelled from the spec: [pci_set_irq] of the PCI core, which is not
    part of the device source, asserts (1) or deasserts (0) the
    level-style line. *)
Definition pci_set_irq (level : Z) : M unit :=
  modify_fx (fun f =>
    with_pdev (mkPCIDevice (msi_on (pdev f)) level (msi_log (pdev f))) f).

Definition fx_raise_irq (val : Z) : M unit :=
  st <- gets irq_status ;;
  modify_fx (with_irq_status (Z.lor st val)) ;;
  st' <- gets irq_status ;;
  if negb (st' =? 0) then
    msi <- fx_msi_enabled ;;
    if msi then msi_notify 0 else pci_set_irq 1
  else ret tt.

Definition fx_lower_irq (val : Z) : M unit :=
  st <- gets irq_status ;;
  modify_fx (with_irq_status (Z.land st (not32 val))) ;;
  st' <- gets irq_status ;;
  msi <- fx_msi_enabled ;;
  if (st' =? 0) && negb msi then pci_set_irq 0 else ret tt.

(** [fx_raise_irq(fx, val)] as the forcer thread runs it, one access to
    the shared state per step: the statement at program point [l]. *)
Definition fx_raise_irq_stmt (val : Z) (l : label) : M unit :=
  match l with
  | L203 => st <- gets irq_status ;; set_acc st ;; goto L95s
  | L95s => a <- reads (fun s => acc (thr s)) ;;
            modify_fx (with_irq_status (Z.lor a val)) ;; goto L96
  | L96 => st <- gets irq_status ;;
           if negb (st =? 0) then goto L97 else goto L205
  | L97 => msi <- fx_msi_enabled ;; if msi then goto L98 else goto L100
  | L98 => msi_notify 0 ;; goto L205
  | L100 => pci_set_irq 1 ;; goto L205
  | _ => blocked
  end.

Definition ack_goto (l : ack_label) : M unit :=
  modify_access (fun c => mkAccess l (aval c) (areg c)).

(** The access enters [fx_lower_irq(fx, val)]: the load of line 107. *)
Definition fx_lower_irq_enter (val : Z) : M unit :=
  st <- gets irq_status ;;
  modify_access (fun _ => mkAccess A107s val st).

(** [fx_lower_irq] as the acknowledge write runs it after the load, one
    access to the shared state per step. *)
Definition fx_lower_irq_stmt : M unit :=
  l <- reads (fun s => apc (access s)) ;;
  match l with
  | AIdle => blocked
  | A107s => a <- reads (fun s => areg (access s)) ;;
             v <- reads (fun s => aval (access s)) ;;
             modify_fx (with_irq_status (Z.land a (not32 v))) ;; ack_goto A109
  | A109 => st <- gets irq_status ;;
            msi <- fx_msi_enabled ;;
            if (st =? 0) && negb msi then ack_goto A110 else ack_goto AIdle
  | A110 => pci_set_irq 0 ;; ack_goto AIdle
  end.

(** ** Register file *)

Definition fx_mmio_read (addr : Z) (size : Z) : M Z :=
  let val := ALL_ONES in
  if negb (size =? 4) then ret val
  else if addr =? ID_REGISTER then ret 0x01000ed
  else if addr =? CARD_LIVENESS_REGISTER then gets card_liveness
  else if addr =? INTERRUPT_STATUS_REGISTER then gets irq_status
  else ret val.

(** Run by the thread [t] that dispatches the access. *)
Definition fx_mmio_write (t : thread_id) (addr val size : Z) : M unit :=
  if negb (size =? 4) then ret tt
  else if addr =? START_THREAD_REGISTER then
    qemu_mutex_lock t THR_MUTEX ;;
    qemu_cond_signal ;;
    qemu_mutex_unlock THR_MUTEX
  else if addr =? SCHEDULE_NEXT_REGISTER then
    qemu_mutex_lock t THR_MUTEX ;;
    qemu_cond_signal ;;
    qemu_mutex_unlock THR_MUTEX
  else if addr =? INTERRUPT_RAISE_REGISTER then ret tt
  else if addr =? INTERRUPT_ACK_REGISTER then fx_lower_irq (u32 val)
  else ret tt.

(** ** Forcer thread *)

(** [interval * G_USEC_PER_SEC / 10]: the product is an [unsigned int] and
    wraps, the division is unsigned. *)
Definition base_period (interval : Z) : Z :=
  u32 (interval * G_USEC_PER_SEC) / 10.

(** [*(unsigned int * )buf % (G_USEC_PER_SEC / 100)]. *)
Definition jitter (random : Z) : Z := random mod (G_USEC_PER_SEC / 100).

Definition max_jitter : Z := G_USEC_PER_SEC / 100 - 1.

(** The argument of [g_usleep]: an [unsigned int] sum, widened to [gulong]
    without change. *)
Definition sleep_usec (interval random : Z) : Z :=
  u32 (base_period interval + jitter random).

(** What one step of the system shows to an observer. *)
Inductive event :=
| EvTau
| EvRandom (r : Z)
| EvConfRead (v : Z)
| EvSleep (interval usec : Z)
| EvRaise
| EvExit
| EvRead (addr size val : Z)
| EvWrite (addr val size : Z)
| EvAccept (fd : Z)
| EvPublish (v : Z)
| EvStop
| EvStopSignal
| EvJoin.

Definition set_interval (v : Z) : M unit :=
  modify_thr (fun t => mkForcer (pc t) v (buf t) (acc t)).

Definition set_buf (v : Z) : M unit :=
  modify_thr (fun t => mkForcer (pc t) (interval t) v (acc t)).

Definition silently (m : M unit) : M event := m ;; ret EvTau.

(** [wait_device_driver], one statement per step: the armed wait for the
    driver's first signal.  Its last line calls [fx_forcer_thread]. *)
Definition wait_device_driver : M event :=
  fun s =>
  match pc (thr s) with
  | L174 => silently (qemu_mutex_lock Forcer THR_MUTEX ;; goto L175) s
  | L175 => silently (cond_wait_sleep Forcer ;; goto L175w) s
  | L175w => silently (cond_wait_wake Forcer ;; goto L176) s
  | L176 => silently (qemu_mutex_unlock THR_MUTEX ;; goto L191) s
  | _ => None
  end.

(** [fx_forcer_thread], one statement per step, and one access to the
    interrupt state per step inside the call of line 203.  [random] is
    what [getrandom] stores in the zeroed [buf] when the statement is line
    191; the thread has returned at [L217]. *)
Definition fx_forcer_thread (random : Z) : M event :=
  fun s =>
  let t := thr s in
  match pc t with
  | L191 => (set_buf (u32 random) ;; goto L193 ;; ret (EvRandom (u32 random))) s
  | L193 => silently (qemu_mutex_lock Forcer CONF_MUTEX ;; goto L194) s
  | L194 => (v <- gets conf_sleep_interval ;;
             set_interval v ;; goto L195 ;; ret (EvConfRead v)) s
  | L195 => silently (qemu_mutex_unlock CONF_MUTEX ;; goto L197) s
  | L197 => (goto L202 ;;
             ret (EvSleep (interval t) (sleep_usec (interval t) (buf t)))) s
  | L202 => silently (qemu_mutex_lock Forcer THR_MUTEX ;; goto L203) s
  | L203 => (fx_raise_irq_stmt 0x1 L203 ;; ret EvRaise) s
  | L95s => silently (fx_raise_irq_stmt 0x1 L95s) s
  | L96 => silently (fx_raise_irq_stmt 0x1 L96) s
  | L97 => silently (fx_raise_irq_stmt 0x1 L97) s
  | L98 => silently (fx_raise_irq_stmt 0x1 L98) s
  | L100 => silently (fx_raise_irq_stmt 0x1 L100) s
  | L205 => silently (cond_wait_sleep Forcer ;; goto L205w) s
  | L205w => silently (cond_wait_wake Forcer ;; goto L207) s
  | L207 => silently (st <- gets stopping ;;
                      if st then goto L208 else goto L212) s
  | L208 => (qemu_mutex_unlock THR_MUTEX ;; goto L217 ;; ret EvExit) s
  | L212 => silently (qemu_mutex_unlock THR_MUTEX ;; goto L191) s
  | _ => None
  end.

(** The thread created by [qemu_thread_create(..., wait_device_driver, ...)]. *)
Definition forcer_step (random : Z) : M event :=
  fun s =>
  match pc (thr s) with
  | NotCreated | L217 => None
  | L174 | L175 | L175w | L176 => wait_device_driver s
  | _ => fx_forcer_thread random s
  end.

(** ** Configuration server *)

Fixpoint remove_handler (fd : Z) (h : list (Z * callback)) : list (Z * callback) :=
  match h with
  | [] => []
  | (fd', cb) :: h' =>
      if fd' =? fd then remove_handler fd h' else (fd', cb) :: remove_handler fd h'
  end.

Fixpoint handler_of (fd : Z) (h : list (Z * callback)) : option callback :=
  match h with
  | [] => None
  | (fd', cb) :: h' => if fd' =? fd then Some cb else handler_of fd h'
  end.

(** [qemu_set_fd_handler(fd, cb, NULL, opaque)]; [None] is a NULL handler
    and removes the descriptor from the monitored set. *)
Definition qemu_set_fd_handler (fd : Z) (cb : option callback) : M unit :=
  modify_io (fun r =>
    mkReactor (life r)
      (match cb with
       | Some c => (fd, c) :: remove_handler fd (fd_handlers r)
       | None => remove_handler fd (fd_handlers r)
       end)
      (open_fds r)).

Definition close (fd : Z) : M unit :=
  modify_io (fun r =>
    mkReactor (life r) (fd_handlers r)
      (filter (fun x => negb (x =? fd)) (open_fds r))).

Definition opened (fd : Z) : M unit :=
  modify_io (fun r => mkReactor (life r) (fd_handlers r) (fd :: open_fds r)).

Definition set_life (p : phase) : M unit :=
  modify_io (fun r => mkReactor p (fd_handlers r) (open_fds r)).

Inductive endianness := LittleEndian | BigEndian.

(** An octet is a [Z] reduced modulo 256. *)
Definition decode_le (bs : list Z) : Z :=
  fold_right (fun b acc => b mod 256 + 256 * acc) 0 bs.

Fixpoint encode_le (n : nat) (x : Z) : list Z :=
  match n with
  | O => []
  | S n' => x mod 256 :: encode_le n' (x / 256)
  end.

Definition decode (e : endianness) (bs : list Z) : Z :=
  match e with LittleEndian => decode_le bs | BigEndian => decode_le (rev bs) end.

Definition encode (e : endianness) (x : Z) : list Z :=
  match e with
  | LittleEndian => encode_le 4 (u32 x)
  | BigEndian => rev (encode_le 4 (u32 x))
  end.

(** What [read(fd, &interval, sizeof(unsigned int))] does: it fails, or it
    stores the octets it received (at most four) at the start of the
    object. *)
Inductive read_result :=
| ReadError
| ReadBytes (bs : list Z).

(** What the callback gets from outside the device: the byte order of the
    host, the indeterminate value the uninitialised local [interval] holds
    on entry, and the result of [read]. *)
Record recv := mkRecv {
  host_order : endianness;
  stack_garbage : Z;
  outcome : read_result
}.

(** [read]'s return value. *)
Definition read_count (r : read_result) : Z :=
  match r with
  | ReadError => -1
  | ReadBytes bs => Z.of_nat (length (firstn 4 bs))
  end.

(** The value of the local [interval] after the call to [read]. *)
Definition interval_after_read (x : recv) : Z :=
  let slot := encode (host_order x) (stack_garbage x) in
  match outcome x with
  | ReadError => decode (host_order x) slot
  | ReadBytes bs =>
      let got := firstn 4 bs in
      decode (host_order x) (got ++ skipn (length got) slot)
  end.

Definition accept_conf_server_callback (newfd : Z) : M unit :=
  modify_fx (with_conn_fd newfd) ;;
  opened newfd ;;
  c <- gets conn_fd ;;
  qemu_set_fd_handler c (Some read_cb).

Definition read_conf_server_callback (x : recv) : M unit :=
  let interval := interval_after_read x in
  qemu_mutex_lock Iothread CONF_MUTEX ;;
  modify_fx (with_conf_sleep_interval interval) ;;
  qemu_mutex_unlock CONF_MUTEX ;;
  c <- gets conn_fd ;;
  qemu_set_fd_handler c None ;;
  close c.

Definition conf_server_init (sock : Z) : M unit :=
  modify_fx (with_conf_mutex None) ;;
  modify_fx (with_conf_sleep_interval CONF_INTERVAL_DEFAULT) ;;
  modify_fx (with_listen_fd sock) ;;
  opened sock ;;
  l <- gets listen_fd ;;
  qemu_set_fd_handler l (Some accept_cb).

Definition conf_server_uninit : M unit :=
  l <- gets listen_fd ;;
  close l.

(** ** Life cycle *)

Definition fx_instance_init : M unit :=
  modify_fx (with_card_liveness 0xdeadbeef).

(** [sock] is the descriptor that [socket] returns.  The early return on a
    failing [msi_init] leaves no device and is not modelled; creating the
    thread puts it at the first line of [wait_device_driver]. *)
Definition pci_fx_realize (sock : Z) : M unit :=
  modify_fx (with_thr_mutex None) ;;
  modify_fx (with_thr_cond []) ;;
  goto L174 ;;
  conf_server_init sock ;;
  set_life Realized.

(** [pci_fx_uninit], cut where it can block or race with the forcer
    thread: lines 322-324, line 325, and the join with what follows it. *)
Definition pci_fx_uninit : M event :=
  fun s =>
  match life (io s) with
  | Realized =>
      (qemu_mutex_lock Iothread THR_MUTEX ;;
       modify_fx (with_stopping true) ;;
       qemu_mutex_unlock THR_MUTEX ;;
       set_life U325 ;; ret EvStop) s
  | U325 => (qemu_cond_signal ;; set_life U326 ;; ret EvStopSignal) s
  | U326 =>
      match pc (thr s) with
      | L217 => (conf_server_uninit ;; set_life Unplugged ;; ret EvJoin) s
      | _ => None
      end
  | Unrealized | Unplugged => None
  end.

(** The object before [fx_instance_init]: zeroed memory, with the guest's
    choice of interrupt signalling. *)
Definition blank (msi : bool) : Sys :=
  mkSys
    (mkFxState (mkPCIDevice msi 0 []) None [] false 0 0 None 0 0 0)
    (mkForcer NotCreated 0 0 0)
    (mkReactor Unrealized [] [])
    (mkAccess AIdle 0 0).

Definition plugged (msi : bool) (sock : Z) : Sys :=
  match (fx_instance_init ;; pci_fx_realize sock) (blank msi) with
  | Some (_, s) => s
  | None => blank msi
  end.

(** ** The system: interleaving of the forcer thread and the iothread *)

Inductive action :=
| AForcer (random : Z)
| AMmioRead (addr size : Z)
| AMmioWrite (addr val size : Z)
| AAccess
| AAccept (newfd : Z)
| AConfData (x : recv)
| AUninit.

Definition mapped (s : Sys) : bool :=
  match life (io s) with
  | Realized | U325 | U326 => true
  | _ => false
  end.

Definition running (s : Sys) : bool :=
  match life (io s) with Realized => true | _ => false end.

(** A 4-byte write to the acknowledge register. *)
Definition is_ack_write (addr size : Z) : bool :=
  (size =? 4) && (addr =? INTERRUPT_ACK_REGISTER).

(** One step.  A read is one load; a start or schedule-next write is one
    critical section of [thr_mutex]; a write that is ignored touches
    nothing: each is one step.  An acknowledge write takes no lock, so it
    is cut at the statements of [fx_lower_irq]: [AMmioWrite] dispatches it
    and does the load of line 107, and every [AAccess] runs its next
    statement; a second acknowledge is dispatched once the first has
    returned.  An fd callback runs to completion.  Register accesses are
    not serialised with teardown by anything in the device, so they stay
    possible until the device is unplugged; fd callbacks run on the thread
    that runs [pci_fx_uninit]. *)
Definition step (a : action) : M event :=
  fun s =>
  match a with
  | AForcer random => forcer_step random s
  | AMmioRead addr size =>
      if mapped s then
        (v <- fx_mmio_read (u64 addr) size ;; ret (EvRead (u64 addr) size v)) s
      else None
  | AMmioWrite addr val size =>
      if mapped s then
        if is_ack_write (u64 addr) size then
          match apc (access s) with
          | AIdle =>
              (fx_lower_irq_enter (u32 (u64 val)) ;;
               ret (EvWrite (u64 addr) (u64 val) size)) s
          | _ => None
          end
        else
          (fx_mmio_write Iothread (u64 addr) (u64 val) size ;;
           ret (EvWrite (u64 addr) (u64 val) size)) s
      else None
  | AAccess => silently fx_lower_irq_stmt s
  | AAccept newfd =>
      match running s, handler_of (listen_fd (fx s)) (fd_handlers (io s)) with
      | true, Some accept_cb =>
          (accept_conf_server_callback newfd ;; ret (EvAccept newfd)) s
      | _, _ => None
      end
  | AConfData x =>
      match running s, handler_of (conn_fd (fx s)) (fd_handlers (io s)) with
      | true, Some read_cb =>
          (read_conf_server_callback x ;;
           v <- gets conf_sleep_interval ;; ret (EvPublish v)) s
      | _, _ => None
      end
  | AUninit => pci_fx_uninit s
  end.

(** Run a schedule; the trace is in the order of time. *)
Fixpoint exec (acts : list action) (s : Sys) : option (list event * Sys) :=
  match acts with
  | [] => Some ([], s)
  | a :: rest =>
      match step a s with
      | None => None
      | Some (e, s') =>
          match exec rest s' with
          | None => None
          | Some (tr, s'') => Some (e :: tr, s'')
          end
      end
  end.

(** * Vocabulary of the properties *)

(** ** Unfolding device code *)

Ltac run :=
  cbv [bind ret gets reads blocked modify_fx modify_thr modify_io modify_access
       silently goto ack_goto set_interval set_buf set_acc set_life opened
       close qemu_set_fd_handler qemu_mutex_lock qemu_mutex_unlock
       qemu_cond_signal cond_wait_sleep cond_wait_wake fx_msi_enabled
       msi_notify pci_set_irq owner with_owner].

Ltac run_in H :=
  cbv [bind ret gets reads blocked modify_fx modify_thr modify_io modify_access
       silently goto ack_goto set_interval set_buf set_acc set_life opened
       close qemu_set_fd_handler qemu_mutex_lock qemu_mutex_unlock
       qemu_cond_signal cond_wait_sleep cond_wait_wake fx_msi_enabled
       msi_notify pci_set_irq owner with_owner]
    in H.

(** ** Registers, notifications and sample devices *)

(** The seven offsets the register file decodes. *)
Definition defined_register (addr : Z) : bool :=
  (addr =? ID_REGISTER) || (addr =? CARD_LIVENESS_REGISTER)
  || (addr =? SCHEDULE_NEXT_REGISTER) || (addr =? INTERRUPT_STATUS_REGISTER)
  || (addr =? START_THREAD_REGISTER) || (addr =? INTERRUPT_RAISE_REGISTER)
  || (addr =? INTERRUPT_ACK_REGISTER).

(** The number of message-style notifications sent so far. *)
Definition notifications (s : Sys) : nat := length (msi_log (pdev (fx s))).

(** The realized device after one connection was accepted on descriptor 4. *)
Definition connected_device : Sys :=
  match exec [AAccept 4] (plugged false 3) with
  | Some (_, s) => s
  | None => plugged false 3
  end.

(** ** Case analysis on a step *)

(** Split a hypothesis on the innermost test it is stuck on, until it is
    an equation between results. *)
Ltac break_step H :=
  repeat match type of H with
         | None = Some _ => discriminate H
         | Some _ = Some _ => inversion H; subst; clear H
         | context [match ?x with _ => _ end] =>
             lazymatch x with
             | context [match _ with _ => _ end] => fail
             | _ => idtac
             end;
             let E := fresh "E" in destruct x eqn:E; simpl in H
         end.

(** Case analysis on one step: the action, the program counter of the
    forcer thread, the phase of the iothread and every test on the way. *)
Ltac step_cases H :=
  match type of H with
  | step ?a ?s = _ =>
      destruct s as [[[m lv lg] mx cv stp irq live cmx csi lfd cfd]
                     [l iv bf ac] [ph hs fds] [al av ar]];
      destruct a;
      cbv [step forcer_step wait_device_driver fx_forcer_thread pci_fx_uninit
           mapped running is_ack_write fx_mmio_read fx_mmio_write
           fx_raise_irq fx_lower_irq fx_raise_irq_stmt fx_lower_irq_stmt
           fx_lower_irq_enter accept_conf_server_callback
           read_conf_server_callback conf_server_uninit] in H;
      run_in H; simpl in H; break_step H
  end.

(** ** Level-style line *)

(** The driver's acknowledge lands inside the first raise: the forcer
    thread has stored the mask and passed the tests of lines 96 and 97,
    the acknowledge write runs from its load to its return, and the thread
    then asserts the line (line 100) and goes to its wait. *)
Definition ack_races_raise : list action :=
  [AForcer 0; AForcer 0; AMmioWrite 0x30 0 4;
   AForcer 0; AForcer 0; AForcer 7; AForcer 0; AForcer 0; AForcer 0;
   AForcer 0; AForcer 0;
   AForcer 0; AForcer 0; AForcer 0; AForcer 0;
   AMmioWrite 0x64 1 4; AAccess; AAccess; AAccess;
   AForcer 0; AForcer 0].

(** What [fx_lower_irq] leaves of a state whose mask is zero: with MSI the
    state itself, otherwise the state with the line deasserted. *)
Definition line_deasserted (s : Sys) : Sys :=
  mkSys
    (if msi_on (pdev (fx s)) then fx s
     else with_pdev (mkPCIDevice (msi_on (pdev (fx s))) 0 (msi_log (pdev (fx s))))
            (fx s))
    (thr s) (io s) (access s).

(** ** The rendezvous *)

(** A write that signals the rendezvous: 4 bytes wide, to the start or to
    the schedule-next register. *)
Definition rendezvous_write (addr size : Z) : bool :=
  (size =? 4) && ((addr =? START_THREAD_REGISTER) || (addr =? SCHEDULE_NEXT_REGISTER)).

(** On a trace read backwards: the newest raise has had no rendezvous write
    after it. *)
Fixpoint pending (past : list event) : bool :=
  match past with
  | [] => false
  | EvRaise :: _ => true
  | EvWrite addr _ size :: rest =>
      if rendezvous_write addr size then false else pending rest
  | _ :: rest => pending rest
  end.

(** No raise happened while an earlier one was pending. *)
Fixpoint separated (past : list event) : Prop :=
  match past with
  | [] => True
  | EvRaise :: rest => pending rest = false /\ separated rest
  | _ :: rest => separated rest
  end.

(** Program points from which the thread reaches the raise of line 203
    without going through the wait of line 205. *)
Definition before_raise (l : label) : bool :=
  match l with
  | L95s | L96 | L97 | L98 | L100 | L205 | L205w | L207 | L208 | L217 => false
  | _ => true
  end.

Definition stop_requested (p : phase) : bool :=
  match p with
  | U325 | U326 | Unplugged => true
  | _ => false
  end.

Definition rendezvous_inv (past : list event) (s : Sys) : Prop :=
  separated past
  /\ (stop_requested (life (io s)) = true -> stopping (fx s) = true)
  /\ (before_raise (pc (thr s)) = true -> pending past = false)
  /\ (pc (thr s) = L205w -> waiting Forcer (fx s) = false ->
      stopping (fx s) = true \/ pending past = false)
  /\ (pc (thr s) = L207 -> stopping (fx s) = true \/ pending past = false).

(** A schedule in which the forcer thread raises twice: the driver starts
    the thread, the thread sleeps, raises and waits, the driver writes the
    schedule-next register, and the thread goes round once more. *)
Definition two_cycles : list action :=
  [AForcer 0; AForcer 0; AMmioWrite 0x30 0 4;
   AForcer 0; AForcer 0; AForcer 12345; AForcer 0; AForcer 0; AForcer 0;
   AForcer 0; AForcer 0;
   AForcer 0; AForcer 0; AForcer 0; AForcer 0; AForcer 0; AForcer 0;
   AMmioWrite 0x08 0 4;
   AForcer 0; AForcer 0; AForcer 0; AForcer 777; AForcer 0; AForcer 0;
   AForcer 0; AForcer 0; AForcer 0;
   AForcer 0; AForcer 0; AForcer 0; AForcer 0; AForcer 0; AForcer 0].

(** The device with MSI enabled, in the second cycle of [two_cycles] just
    before the raise of line 203: cause bit 0 of the first cycle is still
    pending, since the driver never wrote the acknowledge register. *)
Definition pending_msi_device : Sys :=
  match exec (firstn 27 two_cycles) (plugged true 3) with
  | Some (_, s) => s
  | None => plugged true 3
  end.

(** ** The published interval *)

Definition is_publish (e : event) : bool :=
  match e with EvPublish _ => true | _ => false end.

Definition is_conf_read (e : event) : bool :=
  match e with EvConfRead _ => true | _ => false end.

Definition is_sleep (e : event) : bool :=
  match e with EvSleep _ _ => true | _ => false end.

(** A stretch of a trace that lies inside one cycle after its read of
    line 194: no further read and no sleep. *)
Definition after_read (b : list event) : bool :=
  forallb (fun e => negb (is_conf_read e || is_sleep e)) b.

(** On a trace read backwards: the newest published interval, or the
    default when nothing was published. *)
Fixpoint last_published (d : Z) (past : list event) : Z :=
  match past with
  | [] => d
  | EvPublish v :: _ => v
  | _ :: rest => last_published d rest
  end.

(** The interval read at line 194 since the newest sleep, if any. *)
Fixpoint cycle_read (past : list event) : option Z :=
  match past with
  | [] => None
  | EvConfRead v :: _ => Some v
  | EvSleep _ _ :: _ => None
  | _ :: rest => cycle_read rest
  end.

(** Every read of line 194 saw the newest published interval, and every
    sleep was computed from the read of its own cycle. *)
Fixpoint fresh (d : Z) (past : list event) : Prop :=
  match past with
  | [] => True
  | EvConfRead v :: rest => v = last_published d rest /\ fresh d rest
  | EvSleep i u :: rest =>
      cycle_read rest = Some i /\ (exists rnd, u = sleep_usec i rnd) /\ fresh d rest
  | _ :: rest => fresh d rest
  end.

Definition holds_interval (l : label) : bool :=
  match l with L195 | L197 => true | _ => false end.

Definition conf_inv (past : list event) (s : Sys) : Prop :=
  fresh CONF_INTERVAL_DEFAULT past
  /\ conf_sleep_interval (fx s) = last_published CONF_INTERVAL_DEFAULT past
  /\ (holds_interval (pc (thr s)) = true ->
      cycle_read past = Some (interval (thr s))).

(** The operator publishes interval 5 while the thread is in its first
    cycle, after the read of line 194 and before the sleep: the first
    sleep still uses the default, and the second cycle reads again and
    sleeps on 5. *)
Definition publish_between_cycles : list action :=
  [AForcer 0; AForcer 0; AMmioWrite 0x30 0 4; AForcer 0; AForcer 0;
   AForcer 42; AForcer 0; AForcer 0; AForcer 0;
   AAccept 4; AConfData (mkRecv LittleEndian 0 (ReadBytes [5; 0; 0; 0]));
   AForcer 0;
   AForcer 0; AForcer 0; AForcer 0; AForcer 0; AForcer 0; AForcer 0; AForcer 0;
   AMmioWrite 0x08 0 4;
   AForcer 0; AForcer 0; AForcer 0;
   AForcer 43; AForcer 0; AForcer 0; AForcer 0; AForcer 0].

(** ** Teardown *)

(** The forcer thread sits in the wait of line 205 with nobody left to
    signal it, while [pci_fx_uninit] sits in [qemu_thread_join]. *)
Definition stuck (s : Sys) : Prop :=
  pc (thr s) = L205w
  /\ waiting Forcer (fx s) = true
  /\ stopping (fx s) = true
  /\ life (io s) = U326.

(** Every action but a rendezvous write. *)
Definition quiet (a : action) : bool :=
  match a with
  | AMmioWrite addr _ size => negb (rendezvous_write (u64 addr) size)
  | _ => true
  end.

(** Teardown arrives while the thread is in [g_usleep] (line 197). *)
Definition teardown_mid_sleep : list action :=
  [AForcer 0; AForcer 0; AMmioWrite 0x30 0 4;
   AForcer 0; AForcer 0; AForcer 7; AForcer 0; AForcer 0; AForcer 0;
   AUninit; AUninit;
   AForcer 0; AForcer 0;
   AForcer 0; AForcer 0; AForcer 0; AForcer 0; AForcer 0; AForcer 0].

(** Teardown arrives while the thread is still in the armed wait of
    [wait_device_driver] (line 175). *)
Definition teardown_armed_wait : list action :=
  [AForcer 0; AForcer 0;
   AUninit; AUninit;
   AForcer 0; AForcer 0; AForcer 7; AForcer 0; AForcer 0; AForcer 0;
   AForcer 0; AForcer 0;
   AForcer 0; AForcer 0; AForcer 0; AForcer 0; AForcer 0; AForcer 0].

(** Teardown arrives while the thread is in the wait of line 205. *)
Definition teardown_in_rendezvous : list action :=
  [AForcer 0; AForcer 0; AMmioWrite 0x30 0 4;
   AForcer 0; AForcer 0; AForcer 7; AForcer 0; AForcer 0; AForcer 0;
   AForcer 0; AForcer 0;
   AForcer 0; AForcer 0; AForcer 0; AForcer 0; AForcer 0; AForcer 0;
   AUninit; AUninit;
   AForcer 0; AForcer 0; AForcer 0;
   AUninit].

(** * Vocabulary of the further properties *)

(** ** Locks and waiters *)

(** Program points at which the forcer thread owns [thr_mutex]. *)
Definition holds_thr_mutex (l : label) : bool :=
  match l with
  | L175 | L176 | L203 | L95s | L96 | L97 | L98 | L100
  | L205 | L207 | L208 | L212 => true
  | _ => false
  end.

(** Program points at which the forcer thread owns [conf_mutex]. *)
Definition holds_conf_mutex (l : label) : bool :=
  match l with L194 | L195 => true | _ => false end.

Definition in_cond_wait (l : label) : bool :=
  match l with L175w | L205w => true | _ => false end.

(** Between steps each mutex is owned by the forcer thread exactly inside
    its critical sections, and only the forcer thread ever waits on the
    condition variable, inside [qemu_cond_wait]. *)
Definition lock_inv (s : Sys) : Prop :=
  thr_mutex (fx s) = (if holds_thr_mutex (pc (thr s)) then Some Forcer else None)
  /\ conf_mutex (fx s) = (if holds_conf_mutex (pc (thr s)) then Some Forcer else None)
  /\ (thr_cond (fx s) = []
      \/ (thr_cond (fx s) = [Forcer] /\ in_cond_wait (pc (thr s)) = true)).

(** The thread has left its loop (line 208 onwards). *)
Definition exiting (l : label) : bool :=
  match l with L208 | L217 => true | _ => false end.

(** ** The interrupt mask and the signalling mode *)

Definition is_raise (e : event) : bool :=
  match e with EvRaise => true | _ => false end.

(** The number of raises in a trace. *)
Definition raises (tr : list event) : nat := length (filter is_raise tr).

(** The event wakes a thread blocked on the condition variable. *)
Definition is_signal (e : event) : bool :=
  match e with
  | EvWrite addr _ size => rendezvous_write addr size
  | EvStopSignal => true
  | _ => false
  end.

Definition bit (x : Z) : Prop := x = 0 \/ x = 1.

(** The mask, and the two registers that hold a copy of it between a load
    and a store, never hold anything but cause bit 0. *)
Definition mask_inv (s : Sys) : Prop :=
  bit (irq_status (fx s)) /\ bit (acc (thr s)) /\ bit (areg (access s)).

(** Program points of a raise that has begun and may still send its
    message. *)
Definition owes_message (l : label) : nat :=
  match l with L95s | L96 | L97 | L98 => 1%nat | _ => 0%nat end.

(** What the guest's choice [msi] of signalling means along a trace: with
    MSI the pin is never touched and every message belongs to a raise of
    its own; without it no message is ever sent. *)
Definition mode_inv (msi : bool) (past : list event) (s : Sys) : Prop :=
  msi_on (pdev (fx s)) = msi
  /\ (if msi
      then intx_level (pdev (fx s)) = 0
           /\ pc (thr s) <> L100
           /\ (length (msi_log (pdev (fx s))) + owes_message (pc (thr s))
               <= raises past)%nat
      else msi_log (pdev (fx s)) = []
           /\ pc (thr s) <> L98
           /\ bit (intx_level (pdev (fx s)))).

(** ** The armed wait and the exit *)

Definition armed (l : label) : bool :=
  match l with L174 | L175 | L175w => true | _ => false end.

(** Until something signals the condition variable the thread stays in
    [wait_device_driver] and has raised nothing. *)
Definition armed_inv (past : list event) (s : Sys) : Prop :=
  existsb is_signal past = false ->
  armed (pc (thr s)) = true
  /\ (pc (thr s) = L175w -> waiting Forcer (fx s) = true)
  /\ existsb is_raise past = false
  /\ irq_status (fx s) = 0
  /\ areg (access s) = 0.

(** The stop flag is set exactly from the first step of teardown on, and
    the thread leaves its loop only with the flag set. *)
Definition exit_inv (s : Sys) : Prop :=
  (stopping (fx s) = stop_requested (life (io s)))
  /\ (exiting (pc (thr s)) = true -> stopping (fx s) = true)
  /\ life (io s) <> Unrealized
  /\ (life (io s) = Unplugged -> pc (thr s) = L217).

(** ** Values that stay in range *)

Definition range_inv (s : Sys) : Prop :=
  card_liveness (fx s) = 0xdeadbeef
  /\ 0 <= conf_sleep_interval (fx s) < 2 ^ 32
  /\ 0 <= interval (thr s) < 2 ^ 32
  /\ 0 <= buf (thr s) < 2 ^ 32.

(** ** Pacing *)

(** On a trace read backwards: the thread has slept since its newest
    raise. *)
Fixpoint slept (past : list event) : bool :=
  match past with
  | [] => false
  | EvSleep _ _ :: _ => true
  | EvRaise :: _ => false
  | _ :: rest => slept rest
  end.

(** Every raise came after a sleep of its own cycle. *)
Fixpoint paced (past : list event) : Prop :=
  match past with
  | [] => True
  | EvRaise :: rest => slept rest = true /\ paced rest
  | _ :: rest => paced rest
  end.

Definition after_sleep (l : label) : bool :=
  match l with
  | L202 | L203 => true
  | _ => false
  end.

Definition pace_inv (past : list event) (s : Sys) : Prop :=
  paced past /\ (after_sleep (pc (thr s)) = true -> slept past = true).

(** ** An acknowledge around a raise *)

(** The guest writes the acknowledge register while the forcer thread is
    about to raise: the write clears the mask and passes the test of line
    109, the thread then runs the whole of [fx_raise_irq] and goes to its
    wait, and the write at last makes the call of line 110. *)
Definition raise_races_ack : list action :=
  [AForcer 0; AForcer 0; AMmioWrite 0x30 0 4;
   AForcer 0; AForcer 0; AForcer 7; AForcer 0; AForcer 0; AForcer 0;
   AForcer 0; AForcer 0;
   AMmioWrite 0x64 1 4; AAccess; AAccess;
   AForcer 0; AForcer 0; AForcer 0; AForcer 0; AForcer 0; AForcer 0;
   AAccess].

(** ** Running a schedule on a symbolic state *)

Ltac is_closed c :=
  tryif (match c with context [?v] => is_var v end) then fail else idtac.

(** Settle the tests of the code whose operands are known. *)
Ltac decide_tests :=
  repeat (match goal with
          | |- context [if ?c then _ else _] =>
              is_closed c;
              let r := eval vm_compute in c in
              lazymatch r with
              | true => change c with true
              | false => change c with false
              end
          end; cbv beta iota).

(** Run the statement of a goal [step a s = Some (?e, ?s')]. *)
Ltac step_run :=
  cbv [step forcer_step wait_device_driver fx_forcer_thread
       fx_raise_irq_stmt fx_lower_irq_stmt fx_lower_irq_enter is_ack_write
       pci_fx_uninit conf_server_uninit mapped running fx_mmio_write
       bind ret gets reads blocked modify_fx modify_thr modify_io
       modify_access silently goto ack_goto set_interval set_buf set_acc
       set_life opened close qemu_set_fd_handler qemu_mutex_lock
       qemu_mutex_unlock qemu_cond_signal cond_wait_sleep cond_wait_wake
       fx_msi_enabled msi_notify pci_set_irq owner with_owner
       with_pdev with_thr_mutex with_thr_cond with_stopping with_irq_status
       with_card_liveness with_conf_mutex with_conf_sleep_interval
       with_listen_fd with_conn_fd
       msi_on intx_level msi_log pdev thr_mutex thr_cond stopping
       irq_status card_liveness conf_mutex conf_sleep_interval listen_fd
       conn_fd pc interval buf acc apc aval areg life fd_handlers open_fds
       fx thr io access
       waiting existsb thread_eqb tl app negb andb orb];
  decide_tests.

Ltac step_eq := step_run; reflexivity.

(** * Properties *)

(** ** Integers *)

Lemma u32_range (x : Z) : 0 <= u32 x < 2 ^ 32.
Proof. unfold u32. apply Z.mod_pos_bound. lia. Qed.

Lemma u32_small (x : Z) : 0 <= x < 2 ^ 32 -> u32 x = x.
Proof. intros H. unfold u32. apply Z.mod_small. exact H. Qed.

Lemma ALL_ONES_value : ALL_ONES = 2 ^ 64 - 1.
Proof. reflexivity. Qed.

Lemma land_twice (a b : Z) : Z.land (Z.land a b) b = Z.land a b.
Proof. rewrite <- Z.land_assoc. rewrite Z.land_diag. reflexivity. Qed.

(** ** Register file *)

Lemma fx_mmio_read_frame (addr size : Z) (s : Sys) :
  exists v, fx_mmio_read addr size s = Some (v, s).
Proof.
  unfold fx_mmio_read.
  destruct (negb (size =? 4)); [eexists; reflexivity|].
  destruct (addr =? ID_REGISTER); [eexists; reflexivity|].
  destruct (addr =? CARD_LIVENESS_REGISTER); [eexists; reflexivity|].
  destruct (addr =? INTERRUPT_STATUS_REGISTER); eexists; reflexivity.
Qed.

(** C10: a register read, at any offset and any width, returns a value and
    leaves the whole system state as it was; the interrupt status read
    returns the mask without clearing it, and the same read made again
    right after returns the same value. *)
Theorem mmio_read_leaves_state (s : Sys) (addr size : Z) :
  (exists v, fx_mmio_read addr size s = Some (v, s)
             /\ (fx_mmio_read addr size ;; fx_mmio_read addr size) s = Some (v, s))
  /\ fx_mmio_read INTERRUPT_STATUS_REGISTER 4 s = Some (irq_status (fx s), s)
  /\ fx_mmio_read CARD_LIVENESS_REGISTER 4 s = Some (card_liveness (fx s), s)
  /\ fx_mmio_read ID_REGISTER 4 s = Some (0x01000ed, s).
Proof.
  split; [|repeat split].
  destruct (fx_mmio_read_frame addr size s) as [v Hv].
  exists v. split; [exact Hv|].
  unfold bind. rewrite Hv. exact Hv.
Qed.

(** C3, as the code has it: a 4-byte read of the schedule-next, start,
    interrupt-raise or interrupt-acknowledge offset returns all-ones
    (2^64 - 1), whatever the device state, and changes nothing. *)
Theorem write_only_registers_read_all_ones (s : Sys) :
  fx_mmio_read SCHEDULE_NEXT_REGISTER 4 s = Some (2 ^ 64 - 1, s)
  /\ fx_mmio_read START_THREAD_REGISTER 4 s = Some (2 ^ 64 - 1, s)
  /\ fx_mmio_read INTERRUPT_RAISE_REGISTER 4 s = Some (2 ^ 64 - 1, s)
  /\ fx_mmio_read INTERRUPT_ACK_REGISTER 4 s = Some (2 ^ 64 - 1, s).
Proof. repeat split. Qed.

(** C3 fails as stated: on the freshly realized device, the 4-byte read of
    offset 0x08 and the one of offset 0x30 return 0xffffffffffffffff, not
    zero. *)
Lemma next_and_start_read_nonzero :
  fx_mmio_read 0x08 4 (plugged false 3) = Some (0xffffffffffffffff, plugged false 3)
  /\ fx_mmio_read 0x30 4 (plugged false 3) = Some (0xffffffffffffffff, plugged false 3)
  /\ fx_mmio_read 0x08 4 (plugged false 3) <> Some (0, plugged false 3)
  /\ fx_mmio_read 0x30 4 (plugged false 3) <> Some (0, plugged false 3).
Proof. repeat split; discriminate. Qed.

(** C8: a 4-byte read of an offset outside the defined register set
    returns all-ones; an access whose width is not 4 bytes changes nothing:
    the read returns all-ones and the write is ignored, for every state,
    offset and value. *)
Theorem unmapped_or_misaligned_access (s : Sys) (t : thread_id) (addr val size : Z) :
  (size <> 4 \/ defined_register addr = false) ->
  fx_mmio_read addr size s = Some (2 ^ 64 - 1, s)
  /\ (size <> 4 -> fx_mmio_write t addr val size s = Some (tt, s)).
Proof.
  intros H. split.
  - unfold fx_mmio_read.
    destruct (size =? 4) eqn:Hs; simpl; [|reflexivity].
    destruct H as [H|H]; [apply Z.eqb_eq in Hs; contradiction|].
    unfold defined_register in H.
    repeat (apply orb_false_iff in H; destruct H as [H ?]).
    rewrite H.
    repeat match goal with E : (_ =? _) = false |- _ => rewrite E; clear E end.
    reflexivity.
  - intros Hn. unfold fx_mmio_write.
    destruct (size =? 4) eqn:Hs; simpl; [|reflexivity].
    apply Z.eqb_eq in Hs. contradiction.
Qed.

Lemma unmapped_or_misaligned_access_witness :
  fx_mmio_read 0x10 4 (plugged false 3) = Some (2 ^ 64 - 1, plugged false 3)
  /\ fx_mmio_read 0x24 2 (plugged false 3) = Some (2 ^ 64 - 1, plugged false 3)
  /\ fx_mmio_write Iothread 0x30 1 2 (plugged false 3) = Some (tt, plugged false 3).
Proof.
  split; [|split].
  - apply (unmapped_or_misaligned_access (plugged false 3) Iothread 0x10 1 4).
    right. reflexivity.
  - apply (unmapped_or_misaligned_access (plugged false 3) Iothread 0x24 1 2).
    left. lia.
  - apply (unmapped_or_misaligned_access (plugged false 3) Iothread 0x30 1 2);
      [left|]; lia.
Defined.

(** ** Interrupt line *)

Lemma fx_raise_irq_eq (val : Z) (s : Sys) :
  fx_raise_irq val s =
  let st' := Z.lor (irq_status (fx s)) val in
  let f := with_irq_status st' (fx s) in
  Some (tt,
        mkSys
          (if st' =? 0 then f
           else if msi_on (pdev (fx s))
                then with_pdev (mkPCIDevice (msi_on (pdev f)) (intx_level (pdev f))
                                  (0 :: msi_log (pdev f))) f
                else with_pdev (mkPCIDevice (msi_on (pdev f)) 1 (msi_log (pdev f))) f)
          (thr s) (io s) (access s)).
Proof.
  destruct s as [[[m l g] ? ? ? st ? ? ? ? ?] t r c].
  unfold fx_raise_irq. run. simpl.
  destruct (Z.lor st val =? 0); simpl; [reflexivity|].
  destruct m; reflexivity.
Qed.

Lemma fx_lower_irq_eq (val : Z) (s : Sys) :
  fx_lower_irq val s =
  let st' := Z.land (irq_status (fx s)) (not32 val) in
  let f := with_irq_status st' (fx s) in
  Some (tt,
        mkSys
          (if (st' =? 0) && negb (msi_on (pdev (fx s)))
           then with_pdev (mkPCIDevice (msi_on (pdev f)) 0 (msi_log (pdev f))) f
           else f)
          (thr s) (io s) (access s)).
Proof.
  destruct s as [[[m l g] ? ? ? st ? ? ? ? ?] t r c].
  unfold fx_lower_irq. run. simpl.
  destruct (Z.land st (not32 val) =? 0); destruct m; reflexivity.
Qed.

(** C5, as the code has it: [fx_raise_irq] ORs the cause bits into the
    mask and, with MSI enabled, sends exactly one notification whenever the
    resulting mask is non-zero - also when the mask was non-zero before the
    raise - and none when the resulting mask is zero; with MSI disabled it
    sends none and asserts the line when the resulting mask is non-zero. *)
Theorem raise_notifies_on_nonzero_mask (s : Sys) (val : Z) :
  exists s',
    fx_raise_irq val s = Some (tt, s')
    /\ irq_status (fx s') = Z.lor (irq_status (fx s)) val
    /\ msi_on (pdev (fx s')) = msi_on (pdev (fx s))
    /\ notifications s' =
       (if msi_on (pdev (fx s)) && negb (irq_status (fx s') =? 0)
        then S (notifications s) else notifications s)
    /\ intx_level (pdev (fx s')) =
       (if negb (msi_on (pdev (fx s))) && negb (irq_status (fx s') =? 0)
        then 1 else intx_level (pdev (fx s))).
Proof.
  rewrite fx_raise_irq_eq. cbv zeta. eexists. split; [reflexivity|].
  unfold notifications. simpl.
  destruct (Z.lor (irq_status (fx s)) val =? 0) eqn:E;
    destruct (msi_on (pdev (fx s))) eqn:Hm; simpl; rewrite ?E, ?Hm; simpl;
    repeat split; reflexivity.
Qed.

(** C5 fails as stated: with MSI enabled and the mask already 1, raising
    cause bit 0 again sends one more notification. *)
Lemma raise_on_pending_mask_notifies_again :
  msi_on (pdev (fx pending_msi_device)) = true
  /\ pc (thr pending_msi_device) = L203
  /\ irq_status (fx pending_msi_device) = 1
  /\ notifications pending_msi_device = 1%nat
  /\ (exists s', fx_raise_irq 0x1 pending_msi_device = Some (tt, s')
                 /\ irq_status (fx s') = 1
                 /\ notifications s' = 2%nat)
  /\ (exists s',
        exec [AForcer 0; AForcer 0; AForcer 0; AForcer 0; AForcer 0]
          pending_msi_device
        = Some ([EvRaise; EvTau; EvTau; EvTau; EvTau], s')
        /\ notifications s' = 2%nat).
Proof.
  repeat (split; [reflexivity|]).
  split; eexists; (split; [vm_compute; reflexivity|]); repeat split.
Qed.

(** ** Sleep duration *)

Lemma jitter_range (r : Z) : 0 <= jitter r <= max_jitter.
Proof.
  unfold jitter, max_jitter, G_USEC_PER_SEC.
  change (1000000 / 100) with 10000.
  pose proof (Z.mod_pos_bound r 10000). lia.
Qed.

Lemma base_period_range (i : Z) : 0 <= base_period i <= 429496729.
Proof.
  unfold base_period. pose proof (u32_range (i * G_USEC_PER_SEC)) as H.
  change (2 ^ 32) with 4294967296 in H.
  split.
  - apply Z.div_pos; lia.
  - apply Z.lt_succ_r. apply Z.div_lt_upper_bound; lia.
Qed.

(** The sum never wraps: the sleep is the base period plus the jitter. *)
Lemma sleep_usec_sum (i r : Z) : sleep_usec i r = base_period i + jitter r.
Proof.
  unfold sleep_usec. apply u32_small.
  pose proof (base_period_range i). pose proof (jitter_range r).
  unfold max_jitter, G_USEC_PER_SEC in *.
  change (1000000 / 100 - 1) with 9999 in *.
  change (2 ^ 32) with 4294967296. lia.
Qed.

Lemma base_period_no_wrap (i : Z) :
  0 <= i <= 4294 -> base_period i = i * 100000.
Proof.
  intros H. unfold base_period, G_USEC_PER_SEC.
  rewrite u32_small by (change (2 ^ 32) with 4294967296; lia).
  replace (i * 1000000) with (i * 100000 * 10) by lia.
  apply Z.div_mul. lia.
Qed.

(** C6, as the code has it: for intervals whose product with
    [G_USEC_PER_SEC] fits 32 bits (at most 4294), the sleep duration is
    monotonic non-decreasing in the interval with the random value held
    fixed; for every interval and random value it is at most
    [base_period interval + max_jitter], and the jitter is below
    [G_USEC_PER_SEC / 100], itself below [G_USEC_PER_SEC / 10]. *)
Theorem sleep_monotonic_and_bounded (i1 i2 r : Z) :
  0 <= i1 <= i2 -> i2 <= 4294 ->
  sleep_usec i1 r <= sleep_usec i2 r
  /\ (forall i r', sleep_usec i r' <= base_period i + max_jitter)
  /\ (forall r', 0 <= jitter r' < G_USEC_PER_SEC / 100)
  /\ G_USEC_PER_SEC / 100 < G_USEC_PER_SEC / 10.
Proof.
  intros H1 H2. repeat split.
  - rewrite !sleep_usec_sum, !base_period_no_wrap by lia. lia.
  - intros i r'. rewrite sleep_usec_sum. pose proof (jitter_range r'). lia.
  - apply jitter_range.
  - pose proof (jitter_range r') as H. unfold max_jitter in H. lia.
Qed.

Lemma sleep_monotonic_and_bounded_witness :
  sleep_usec 5 12345 <= sleep_usec 10 12345
  /\ (forall i r', sleep_usec i r' <= base_period i + max_jitter)
  /\ (forall r', 0 <= jitter r' < G_USEC_PER_SEC / 100)
  /\ G_USEC_PER_SEC / 100 < G_USEC_PER_SEC / 10.
Proof. apply (sleep_monotonic_and_bounded 5 10 12345); lia. Defined.

(** C6 fails as stated: the 32-bit product wraps between the intervals
    4294 and 4295, and the larger interval sleeps less. *)
Lemma sleep_not_monotonic_at_wrap :
  4294 <= 4295
  /\ sleep_usec 4294 0 = 429400000
  /\ sleep_usec 4295 0 = 3270
  /\ ~ (sleep_usec 4294 0 <= sleep_usec 4295 0).
Proof.
  split; [lia|]. split; [reflexivity|]. split; [reflexivity|].
  vm_compute. intros H. apply H. reflexivity.
Qed.

(** ** Configuration server *)

Lemma encode_le_length (n : nat) (x : Z) : length (encode_le n x) = n.
Proof. revert x. induction n; intros x; simpl; [reflexivity|]. rewrite IHn. reflexivity. Qed.

Lemma encode_length (e : endianness) (x : Z) : length (encode e x) = 4%nat.
Proof.
  destruct e; unfold encode; [|rewrite length_rev]; apply encode_le_length.
Qed.

Lemma decode_le_encode_le (n : nat) (x : Z) :
  decode_le (encode_le n x) = x mod 256 ^ Z.of_nat n.
Proof.
  revert x. induction n; intros x.
  - simpl. rewrite Z.mod_1_r. reflexivity.
  - cbn [encode_le decode_le fold_right].
    change (fold_right (fun b acc => b mod 256 + 256 * acc) 0 (encode_le n (x / 256)))
      with (decode_le (encode_le n (x / 256))).
    rewrite IHn. rewrite Z.mod_mod by lia.
    rewrite Nat2Z.inj_succ, Z.pow_succ_r by lia.
    assert (0 < 256 ^ Z.of_nat n) by (apply Z.pow_pos_nonneg; lia).
    rewrite Z.rem_mul_r by lia. reflexivity.
Qed.

Lemma decode_encode (e : endianness) (x : Z) : decode e (encode e x) = u32 x.
Proof.
  assert (H : decode_le (encode_le 4 (u32 x)) = u32 x).
  { rewrite decode_le_encode_le. change (256 ^ Z.of_nat 4) with (2 ^ 32).
    unfold u32. apply Z.mod_mod. lia. }
  destruct e; unfold decode, encode; [|rewrite rev_involutive]; exact H.
Qed.

Lemma full_read_interval (x : recv) (bs : list Z) :
  outcome x = ReadBytes bs -> length bs = 4%nat ->
  interval_after_read x = decode (host_order x) bs.
Proof.
  intros Ho Hl. unfold interval_after_read. rewrite Ho.
  rewrite firstn_all2 by lia. rewrite Hl.
  rewrite skipn_all2 by (rewrite encode_length; lia).
  rewrite app_nil_r. reflexivity.
Qed.

Lemma failed_read_interval (x : recv) :
  outcome x = ReadError -> interval_after_read x = u32 (stack_garbage x).
Proof.
  intros Ho. unfold interval_after_read. rewrite Ho. apply decode_encode.
Qed.

Lemma handler_of_removed (fd : Z) (h : list (Z * callback)) :
  handler_of fd (remove_handler fd h) = None.
Proof.
  induction h as [|[fd' cb] h IH]; simpl; [reflexivity|].
  destruct (fd' =? fd) eqn:E; simpl; [exact IH|]. rewrite E. exact IH.
Qed.

Lemma handler_of_other (fd fd0 : Z) (h : list (Z * callback)) :
  fd0 <> fd -> handler_of fd0 (remove_handler fd h) = handler_of fd0 h.
Proof.
  intros Hne. induction h as [|[fd' cb] h IH]; simpl; [reflexivity|].
  destruct (fd' =? fd) eqn:E; simpl.
  - apply Z.eqb_eq in E. subst fd'.
    destruct (fd =? fd0) eqn:E'; [apply Z.eqb_eq in E'; congruence | exact IH].
  - destruct (fd' =? fd0); [reflexivity | exact IH].
Qed.

Lemma closed_not_open (fd : Z) (l : list Z) :
  ~ In fd (filter (fun x => negb (x =? fd)) l).
Proof.
  intros H. apply filter_In in H. destruct H as [_ H].
  rewrite Z.eqb_refl in H. discriminate.
Qed.

(** C4, as the code has it: [read_conf_server_callback] does not look at
    what [read] returned.  Whatever the result (error, short or full), it
    publishes the value its local [interval] holds after the call - the
    received integer after a full read, the untouched indeterminate local
    after a failed one - and then deregisters the connection's handler and
    closes the connection, leaving the listener's handler in place. *)
Theorem conf_read_publishes_unvalidated (s : Sys) (x : recv) :
  conf_mutex (fx s) = None ->
  listen_fd (fx s) <> conn_fd (fx s) ->
  exists s',
    read_conf_server_callback x s = Some (tt, s')
    /\ conf_sleep_interval (fx s') = interval_after_read x
    /\ match outcome x with
       | ReadError => interval_after_read x = u32 (stack_garbage x)
       | ReadBytes bs =>
           if (length bs =? 4)%nat
           then interval_after_read x = decode (host_order x) bs
           else True
       end
    /\ handler_of (conn_fd (fx s)) (fd_handlers (io s')) = None
    /\ ~ In (conn_fd (fx s)) (open_fds (io s'))
    /\ handler_of (listen_fd (fx s)) (fd_handlers (io s'))
       = handler_of (listen_fd (fx s)) (fd_handlers (io s))
    /\ conf_mutex (fx s') = None.
Proof.
  intros Hm Hne. unfold read_conf_server_callback. run. simpl. rewrite Hm.
  eexists. split; [reflexivity|]. simpl.
  split; [reflexivity|]. split.
  - destruct (outcome x) as [|bs] eqn:Ho.
    + apply failed_read_interval. exact Ho.
    + destruct (length bs =? 4)%nat eqn:El; [|exact I].
      apply Nat.eqb_eq in El. apply full_read_interval; assumption.
  - split; [apply handler_of_removed|].
    split; [apply closed_not_open|].
    split; [apply handler_of_other; exact Hne | reflexivity].
Qed.

Lemma conf_read_publishes_unvalidated_witness :
  exists s',
    read_conf_server_callback (mkRecv LittleEndian 77 (ReadBytes [5; 0; 0; 0]))
      connected_device = Some (tt, s')
    /\ conf_sleep_interval (fx s') = 5
    /\ handler_of 4 (fd_handlers (io s')) = None
    /\ ~ In 4 (open_fds (io s'))
    /\ handler_of 3 (fd_handlers (io s')) = Some accept_cb.
Proof.
  destruct (conf_read_publishes_unvalidated connected_device
              (mkRecv LittleEndian 77 (ReadBytes [5; 0; 0; 0])))
    as [s' [H1 [H2 [H3 [H4 [H5 [H6 H7]]]]]]].
  - reflexivity.
  - vm_compute. discriminate.
  - exists s'. split; [exact H1|]. split; [rewrite H2; reflexivity|].
    split; [exact H4|]. split; [exact H5|].
    etransitivity; [exact H6 | reflexivity].
Defined.

(** C4 fails as stated: a connection whose [read] fails still overwrites
    the published interval (10 before, the indeterminate local after), and
    so does a connection closed by the peer before it sent anything. *)
Lemma failed_read_overwrites_interval :
  conf_sleep_interval (fx connected_device) = 10
  /\ read_count ReadError = -1
  /\ (exists tr s',
        exec [AConfData (mkRecv LittleEndian 123456 ReadError)] connected_device
        = Some (tr, s')
        /\ conf_sleep_interval (fx s') = 123456)
  /\ read_count (ReadBytes []) = 0
  /\ (exists tr s',
        exec [AConfData (mkRecv LittleEndian 123456 (ReadBytes []))] connected_device
        = Some (tr, s')
        /\ conf_sleep_interval (fx s') = 123456).
Proof.
  split; [reflexivity|]. split; [reflexivity|].
  split; [do 2 eexists; split; reflexivity|].
  split; [reflexivity|].
  do 2 eexists; split; reflexivity.
Qed.

(** ** Executions *)

Lemma exec_nil (s : Sys) : exec [] s = Some ([], s).
Proof. reflexivity. Qed.

Lemma exec_cons (a : action) (rest : list action) (s s1 s2 : Sys)
  (e : event) (tr : list event) :
  step a s = Some (e, s1) ->
  exec rest s1 = Some (tr, s2) ->
  exec (a :: rest) s = Some (e :: tr, s2).
Proof. intros H1 H2. simpl. rewrite H1, H2. reflexivity. Qed.

(** An invariant of states and of the trace so far (newest event first)
    that every step preserves holds after every schedule. *)
Lemma exec_invariant (P : list event -> Sys -> Prop) :
  (forall a s e s' past, P past s -> step a s = Some (e, s') -> P (e :: past) s') ->
  forall acts s past tr s',
    P past s -> exec acts s = Some (tr, s') -> P (rev tr ++ past) s'.
Proof.
  intros Hstep. induction acts as [|a acts IH]; intros s past tr s' HP He.
  - simpl in He. inversion He; subst. exact HP.
  - simpl in He. destruct (step a s) as [[e s1]|] eqn:Hs; [|discriminate].
    destruct (exec acts s1) as [[tr1 s2]|] eqn:He1; [|discriminate].
    inversion He; subst. simpl. rewrite <- app_assoc. simpl.
    apply (IH s1 (e :: past) tr1 s'); [|exact He1].
    apply (Hstep a s e s1 past HP Hs).
Qed.

Lemma exec_state_invariant (P : Sys -> Prop) :
  (forall a s e s', P s -> step a s = Some (e, s') -> P s') ->
  forall acts s tr s', P s -> exec acts s = Some (tr, s') -> P s'.
Proof.
  intros Hstep acts s tr s' HP He.
  apply (exec_invariant (fun _ => P)) with (acts := acts) (s := s)
    (past := []) (tr := tr); [|exact HP|exact He].
  intros a s0 e s0' _ H0 Hs0. exact (Hstep a s0 e s0' H0 Hs0).
Qed.

(** ** Acknowledge without a pending cause *)

Lemma fx_lower_irq_twice (val : Z) (s : Sys) :
  (fx_lower_irq val ;; fx_lower_irq val) s = fx_lower_irq val s.
Proof.
  unfold bind. rewrite (fx_lower_irq_eq val s). cbv beta iota zeta.
  rewrite fx_lower_irq_eq. cbv zeta.
  destruct s as [[[m lv lg] mx cv stp irq live cmx csi lfd cfd] t r c]. simpl.
  destruct (Z.land irq (not32 val) =? 0) eqn:E; destruct m; simpl;
    rewrite ?land_twice, ?E; reflexivity.
Qed.

(** C9, as the code has it: when the interrupt mask is zero an
    acknowledge (with any cause bits, called directly or through a 4-byte
    write of the acknowledge register) leaves the mask zero and, with
    level-style signaling, deasserts the line as every lower that ends on
    a zero mask does: nothing changes when MSI is on or the line is
    already low, and the line goes low when it was high.  On any state,
    lowering the same cause bits twice is the same as lowering them
    once. *)
Theorem ack_with_zero_mask_deasserts_line (s : Sys) (val : Z) :
  irq_status (fx s) = 0 ->
  fx_lower_irq val s = Some (tt, line_deasserted s)
  /\ fx_mmio_write Iothread INTERRUPT_ACK_REGISTER val 4 s
     = Some (tt, line_deasserted s)
  /\ irq_status (fx (line_deasserted s)) = 0
  /\ (if msi_on (pdev (fx s)) || (intx_level (pdev (fx s)) =? 0)
      then line_deasserted s = s
      else line_deasserted s <> s)
  /\ (forall s0 v, (fx_lower_irq v ;; fx_lower_irq v) s0 = fx_lower_irq v s0).
Proof.
  intros Hz.
  assert (Hl : forall v, fx_lower_irq v s = Some (tt, line_deasserted s)).
  { intros v. rewrite fx_lower_irq_eq. cbv zeta. unfold line_deasserted.
    destruct s as [[[m lv lg] mx cv stp irq live cmx csi lfd cfd] t r c].
    simpl in *. subst irq. rewrite Z.land_0_l. simpl.
    destruct m; reflexivity. }
  split; [apply Hl|]. split; [apply Hl|]. split; [|split].
  - unfold line_deasserted. destruct s as [[[m lv lg] ? ? ? irq ? ? ? ? ?] t r c].
    simpl in *. destruct m; exact Hz.
  - unfold line_deasserted.
    destruct s as [[[m lv lg] mx cv stp irq live cmx csi lfd cfd] t r c].
    simpl. destruct m; simpl; [reflexivity|].
    destruct (lv =? 0) eqn:E.
    + apply Z.eqb_eq in E. subst lv. reflexivity.
    + apply Z.eqb_neq in E. intros H. inversion H. congruence.
  - intros s0 v. apply fx_lower_irq_twice.
Qed.

Lemma ack_with_zero_mask_deasserts_line_witness :
  fx_lower_irq 0x1 (plugged false 3) = Some (tt, line_deasserted (plugged false 3))
  /\ fx_mmio_write Iothread INTERRUPT_ACK_REGISTER 0x1 4 (plugged false 3)
     = Some (tt, line_deasserted (plugged false 3))
  /\ irq_status (fx (line_deasserted (plugged false 3))) = 0
  /\ line_deasserted (plugged false 3) = plugged false 3
  /\ (forall s0 v, (fx_lower_irq v ;; fx_lower_irq v) s0 = fx_lower_irq v s0).
Proof.
  apply (ack_with_zero_mask_deasserts_line (plugged false 3) 0x1). reflexivity.
Defined.

(** C9 fails as stated: when the driver's acknowledge lands inside the
    raise, between the test of line 96 and the call of line 100, the
    device is left with the mask zero and the line high; an acknowledge
    write in that state finds no cause pending and yet changes the state:
    it lowers the line. *)
Lemma ack_with_zero_mask_lowers_raced_line :
  exists tr s,
    exec ack_races_raise (plugged false 3) = Some (tr, s)
    /\ irq_status (fx s) = 0
    /\ intx_level (pdev (fx s)) = 1
    /\ fx_lower_irq 0x1 s <> Some (tt, s)
    /\ (exists tr' s',
          exec [AMmioWrite INTERRUPT_ACK_REGISTER 0x1 4; AAccess; AAccess; AAccess] s
          = Some (tr', s')
          /\ irq_status (fx s') = 0
          /\ intx_level (pdev (fx s')) = 0).
Proof.
  do 2 eexists. split; [vm_compute; reflexivity|].
  split; [reflexivity|]. split; [reflexivity|]. split.
  - vm_compute. discriminate.
  - do 2 eexists. split; [vm_compute; reflexivity|]. split; reflexivity.
Qed.

(** ** The rendezvous *)

Lemma waiting_after_sleep (t : thread_id) (cv : list thread_id) :
  existsb (thread_eqb t) (cv ++ [t]) = true.
Proof.
  rewrite existsb_app. simpl. destruct t; simpl; rewrite orb_true_r; reflexivity.
Qed.

Lemma rendezvous_inv_step (a : action) (s : Sys) (e : event) (s' : Sys) (past : list event) :
  rendezvous_inv past s -> step a s = Some (e, s') -> rendezvous_inv (e :: past) s'.
Proof.
  intros (Hsep & Hstop & Hpre & Hw & Hc) H. unfold rendezvous_inv.
  step_cases H; unfold waiting in *; simpl in *.
  all: repeat match goal with
       | |- _ /\ _ => split
       | |- _ -> _ => intro
       end.
  all: try discriminate; try assumption; try reflexivity.
  all: try solve [auto | intuition auto | intuition discriminate].
  all: try (rewrite waiting_after_sleep in *; discriminate).
  all: unfold rendezvous_write;
       repeat match goal with
              | E : negb _ = false |- _ => apply negb_false_iff in E
              | E : negb _ = true |- _ => apply negb_true_iff in E
              | E : (_ =? _) = _ |- _ => rewrite E
              end; simpl.
  all: try match goal with
           | |- context [if ?c then false else pending _] => destruct c
           end.
  all: solve [auto | intuition auto | intuition discriminate].
Qed.

Lemma rendezvous_inv_plugged (msi : bool) (sock : Z) :
  rendezvous_inv [] (plugged msi sock).
Proof.
  unfold rendezvous_inv. simpl. repeat split; try discriminate.
Qed.

Lemma separated_app (a b : list event) : separated (a ++ b) -> separated b.
Proof.
  induction a as [|e a IH]; simpl; intros H; [exact H|].
  destruct e; try (apply IH; exact H). apply IH. apply H.
Qed.

Lemma pending_false_app (a b : list event) :
  pending (a ++ EvRaise :: b) = false ->
  exists addr val size,
    In (EvWrite addr val size) a /\ rendezvous_write addr size = true.
Proof.
  induction a as [|e a IH]; simpl; intros H; [discriminate|].
  destruct e as [ | ? | ? | ? ? | | | ? ? ? | addr val size | ? | ? | | | ];
    try (destruct (IH H) as (ad0 & v0 & sz0 & Hin & Hr);
         exists ad0, v0, sz0; split; [right; exact Hin | exact Hr]);
    try discriminate.
  destruct (rendezvous_write addr size) eqn:Hr.
  - exists addr, val, size. split; [left; reflexivity | exact Hr].
  - destruct (IH H) as (ad & v & sz & Hin & Hr').
    exists ad, v, sz. split; [right; exact Hin | exact Hr'].
Qed.

Lemma separated_between (t1 t2 t3 : list event) :
  separated (rev (t1 ++ EvRaise :: t2 ++ EvRaise :: t3)) ->
  exists addr val size,
    In (EvWrite addr val size) t2 /\ rendezvous_write addr size = true.
Proof.
  intros H.
  replace (rev (t1 ++ EvRaise :: t2 ++ EvRaise :: t3))
    with (rev t3 ++ EvRaise :: rev t2 ++ EvRaise :: rev t1) in H.
  - apply separated_app in H. simpl in H. destruct H as [H _].
    destruct (pending_false_app _ _ H) as (ad & v & sz & Hin & Hr).
    exists ad, v, sz. split; [|exact Hr]. apply in_rev. exact Hin.
  - rewrite rev_app_distr. simpl. rewrite rev_app_distr. simpl.
    repeat (rewrite <- app_assoc; simpl). reflexivity.
Qed.

(** C1: in every execution of the realized device, under every schedule of
    the forcer thread, register accesses, configuration connections and
    teardown, two raises of the forcer thread are separated by a 4-byte
    write to the start or to the schedule-next register: the thread never
    raises again before such a write. *)
Theorem raises_separated_by_rendezvous_write
  (msi : bool) (sock : Z) (acts : list action) (tr : list event) (s : Sys)
  (t1 t2 t3 : list event) :
  exec acts (plugged msi sock) = Some (tr, s) ->
  tr = t1 ++ EvRaise :: t2 ++ EvRaise :: t3 ->
  exists addr val,
    In (EvWrite addr val 4) t2
    /\ (addr = START_THREAD_REGISTER \/ addr = SCHEDULE_NEXT_REGISTER).
Proof.
  intros He Htr.
  pose proof (exec_invariant rendezvous_inv rendezvous_inv_step acts
                (plugged msi sock) [] tr s (rendezvous_inv_plugged msi sock) He)
    as (Hsep & _).
  rewrite app_nil_r in Hsep. subst tr.
  destruct (separated_between _ _ _ Hsep) as (ad & v & sz & Hin & Hr).
  unfold rendezvous_write in Hr. apply andb_true_iff in Hr. destruct Hr as [Hs Ha].
  apply Z.eqb_eq in Hs. subst sz. exists ad, v. split; [exact Hin|].
  apply orb_true_iff in Ha. destruct Ha as [Ha|Ha]; apply Z.eqb_eq in Ha; auto.
Qed.

Lemma raises_separated_by_rendezvous_write_witness :
  exists s,
    exec two_cycles (plugged true 3)
    = Some ([EvTau; EvTau; EvWrite 0x30 0 4; EvTau; EvTau; EvRandom 12345; EvTau;
             EvConfRead 10; EvTau; EvSleep 10 1002345; EvTau]
            ++ EvRaise
               :: [EvTau; EvTau; EvTau; EvTau; EvTau; EvWrite 0x08 0 4; EvTau; EvTau; EvTau;
                   EvRandom 777;
                   EvTau; EvConfRead 10; EvTau; EvSleep 10 1000777; EvTau]
               ++ EvRaise :: [EvTau; EvTau; EvTau; EvTau; EvTau], s)
    /\ exists addr val,
         In (EvWrite addr val 4)
            [EvTau; EvTau; EvTau; EvTau; EvTau; EvWrite 0x08 0 4; EvTau; EvTau; EvTau;
                   EvRandom 777;
             EvTau; EvConfRead 10; EvTau; EvSleep 10 1000777; EvTau]
         /\ (addr = START_THREAD_REGISTER \/ addr = SCHEDULE_NEXT_REGISTER).
Proof.
  eexists. split; [vm_compute; reflexivity|].
  eapply (raises_separated_by_rendezvous_write true 3 two_cycles _ _
            [EvTau; EvTau; EvWrite 0x30 0 4; EvTau; EvTau; EvRandom 12345; EvTau;
             EvConfRead 10; EvTau; EvSleep 10 1002345; EvTau]
            [EvTau; EvTau; EvTau; EvTau; EvTau; EvWrite 0x08 0 4; EvTau; EvTau; EvTau;
                   EvRandom 777;
             EvTau; EvConfRead 10; EvTau; EvSleep 10 1000777; EvTau]
            [EvTau; EvTau; EvTau; EvTau; EvTau]);
    [vm_compute; reflexivity | reflexivity].
Defined.

(** ** The published interval *)

Lemma conf_inv_step (a : action) (s : Sys) (e : event) (s' : Sys) (past : list event) :
  conf_inv past s -> step a s = Some (e, s') -> conf_inv (e :: past) s'.
Proof.
  intros (Hf & Hv & Hi) H. unfold conf_inv.
  step_cases H; simpl in *.
  all: repeat match goal with
       | |- _ /\ _ => split
       | |- _ -> _ => intro
       end.
  all: try solve [auto | discriminate | eexists; reflexivity].
Qed.

Lemma conf_inv_plugged (msi : bool) (sock : Z) : conf_inv [] (plugged msi sock).
Proof. unfold conf_inv. simpl. repeat split. discriminate. Qed.

Lemma fresh_app (d : Z) (a b : list event) : fresh d (a ++ b) -> fresh d b.
Proof.
  induction a as [|e a IH]; simpl; intros H; [exact H|].
  destruct e; try (apply IH; exact H); apply IH; apply H.
Qed.

Lemma forallb_reversed (f : event -> bool) (l : list event) :
  forallb f (rev l) = forallb f l.
Proof.
  induction l as [|e l IH]; simpl; [reflexivity|].
  rewrite forallb_app, IH. simpl. rewrite andb_true_r. apply andb_comm.
Qed.

Lemma last_published_app (d V : Z) (a b : list event) :
  forallb (fun e => negb (is_publish e)) a = true ->
  last_published d (a ++ EvPublish V :: b) = V.
Proof.
  induction a as [|e a IH]; simpl; intros H; [reflexivity|].
  apply andb_true_iff in H. destruct H as [He Ha].
  destruct e; simpl in He; try discriminate; apply IH; exact Ha.
Qed.

Lemma cycle_read_split (past : list event) (i : Z) :
  cycle_read past = Some i ->
  exists b a, past = b ++ EvConfRead i :: a /\ after_read b = true.
Proof.
  induction past as [|e past IH]; simpl; intros H; [discriminate|].
  destruct e as [ | ? | v | ? ? | | | ? ? ? | ? ? ? | ? | ? | | | ];
    try discriminate;
    try (destruct (IH H) as (b & a & Hp & Hb);
         eexists (_ :: b), a; split; [rewrite Hp; reflexivity | exact Hb]).
  injection H as ->. exists [], past. split; reflexivity.
Qed.

(** C7: in every execution every sleep of the forcer thread is preceded
    by a read of the shared interval (line 194) made in the same cycle,
    after the previous sleep; the value read is the newest one published
    before the read (the default when none was), and the sleep is computed
    from it.  So once V is published, every cycle that reads before a
    newer publication sleeps on V, while a publication that arrives after
    the read of a cycle does not change that cycle's sleep. *)
Theorem every_cycle_rereads_published_interval
  (msi : bool) (sock : Z) (acts : list action) (tr : list event) (s : Sys)
  (t1 t2 : list event) (i u : Z) :
  exec acts (plugged msi sock) = Some (tr, s) ->
  tr = t1 ++ EvSleep i u :: t2 ->
  exists a b,
    t1 = a ++ EvConfRead i :: b
    /\ after_read b = true
    /\ i = last_published CONF_INTERVAL_DEFAULT (rev a)
    /\ (forall a0 V a1,
          a = a0 ++ EvPublish V :: a1 ->
          forallb (fun e => negb (is_publish e)) a1 = true -> i = V)
    /\ exists rnd, u = sleep_usec i rnd.
Proof.
  intros He Htr.
  pose proof (exec_invariant conf_inv conf_inv_step acts (plugged msi sock) []
                tr s (conf_inv_plugged msi sock) He) as (Hf & _).
  rewrite app_nil_r in Hf. subst tr.
  rewrite rev_app_distr in Hf. simpl in Hf. rewrite <- app_assoc in Hf.
  apply fresh_app in Hf. simpl in Hf. destruct Hf as (Hc & Hu & Hf).
  destruct (cycle_read_split _ _ Hc) as (b & a & Hp & Hb).
  rewrite Hp in Hf. apply fresh_app in Hf. simpl in Hf. destruct Hf as (Hv & _).
  exists (rev a), (rev b). split; [|split; [|split; [|split]]].
  - rewrite <- (rev_involutive t1), Hp, rev_app_distr. simpl.
    rewrite <- app_assoc. reflexivity.
  - unfold after_read in *. rewrite forallb_reversed. exact Hb.
  - rewrite rev_involutive. exact Hv.
  - intros a0 V a1 Ha Hn. rewrite Hv.
    rewrite <- (rev_involutive a), Ha, rev_app_distr. simpl.
    rewrite <- app_assoc. simpl. apply last_published_app.
    rewrite forallb_reversed. exact Hn.
  - exact Hu.
Qed.

Lemma every_cycle_rereads_published_interval_witness :
  exists s a b,
    exec publish_between_cycles (plugged false 3)
    = Some ([EvTau; EvTau; EvWrite 0x30 0 4; EvTau; EvTau; EvRandom 42; EvTau;
             EvConfRead 10; EvTau; EvAccept 4; EvPublish 5; EvSleep 10 1000042;
             EvTau; EvRaise; EvTau; EvTau; EvTau; EvTau; EvTau;
             EvWrite 0x08 0 4; EvTau; EvTau; EvTau; EvRandom 43; EvTau;
             EvConfRead 5; EvTau]
            ++ EvSleep 5 500043 :: [], s)
    /\ [EvTau; EvTau; EvWrite 0x30 0 4; EvTau; EvTau; EvRandom 42; EvTau;
        EvConfRead 10; EvTau; EvAccept 4; EvPublish 5; EvSleep 10 1000042;
        EvTau; EvRaise; EvTau; EvTau; EvTau; EvTau; EvTau;
        EvWrite 0x08 0 4; EvTau; EvTau; EvTau; EvRandom 43; EvTau;
        EvConfRead 5; EvTau]
       = a ++ EvConfRead 5 :: b
    /\ after_read b = true
    /\ 5 = last_published CONF_INTERVAL_DEFAULT (rev a)
    /\ (forall a0 V a1,
          a = a0 ++ EvPublish V :: a1 ->
          forallb (fun e => negb (is_publish e)) a1 = true -> 5 = V)
    /\ exists rnd, 500043 = sleep_usec 5 rnd.
Proof.
  eexists.
  assert (He : exec publish_between_cycles (plugged false 3)
               = Some ([EvTau; EvTau; EvWrite 0x30 0 4; EvTau; EvTau; EvRandom 42;
                        EvTau; EvConfRead 10; EvTau; EvAccept 4; EvPublish 5;
                        EvSleep 10 1000042; EvTau; EvRaise; EvTau; EvTau; EvTau;
                        EvTau; EvTau; EvWrite 0x08 0 4; EvTau; EvTau; EvTau;
                        EvRandom 43; EvTau; EvConfRead 5; EvTau]
                       ++ EvSleep 5 500043 :: [], _))
    by (vm_compute; reflexivity).
  destruct (every_cycle_rereads_published_interval false 3
              publish_between_cycles _ _ _ [] 5 500043 He eq_refl)
    as (a & b & H).
  exists a, b. split; [exact He | exact H].
Defined.

(** ** Teardown *)

Lemma stuck_blocks (s : Sys) :
  stuck s -> (forall r, step (AForcer r) s = None) /\ step AUninit s = None.
Proof.
  intros (Hpc & Hw & _ & Hl).
  destruct s as [f [l iv bf ac] [ph hs fds] c]. simpl in *. subst l ph.
  split; [intros r|]; cbv [step forcer_step fx_forcer_thread pci_fx_uninit]; simpl;
    [|reflexivity].
  run. simpl. rewrite Hw. reflexivity.
Qed.

Lemma stuck_step (a : action) (s : Sys) (e : event) (s' : Sys) :
  stuck s -> quiet a = true -> step a s = Some (e, s') -> stuck s'.
Proof.
  intros (Hpc & Hw & Hs & Hl) Hq H. unfold stuck in *.
  step_cases H; unfold waiting in *; simpl in *; subst;
    try discriminate; try congruence.
  all: try (repeat split; solve [auto]).
  all: unfold rendezvous_write in Hq;
       repeat match goal with
              | E : negb _ = false |- _ => apply negb_false_iff in E
              | E : (_ =? _) = _ |- _ => rewrite E in Hq
              end; simpl in Hq; try discriminate.
  all: rewrite ?orb_true_r in Hq; discriminate.
Qed.

(** Once stuck, always stuck: nothing but a further rendezvous write from
    the guest lets the thread or the join go on. *)
Lemma stuck_forever (acts : list action) :
  forall s tr s',
    stuck s -> forallb quiet acts = true -> exec acts s = Some (tr, s') -> stuck s'.
Proof.
  induction acts as [|a acts IH]; intros s tr s' Hs Hq He; simpl in *.
  - inversion He; subst. exact Hs.
  - apply andb_true_iff in Hq. destruct Hq as [Ha Hq].
    destruct (step a s) as [[e s1]|] eqn:E; [|discriminate].
    destruct (exec acts s1) as [[tr1 s2]|] eqn:E1; [|discriminate].
    inversion He; subst. apply (IH s1 tr1 s'); [|exact Hq|exact E1].
    apply (stuck_step a s e s1 Hs Ha E).
Qed.

(** In that last case the thread wakes, sees the flag and returns, and the
    join succeeds. *)
Lemma teardown_in_rendezvous_joins :
  exists tr s,
    exec teardown_in_rendezvous (plugged false 3) = Some (tr, s)
    /\ pc (thr s) = L217 /\ life (io s) = Unplugged.
Proof. do 2 eexists. split; [vm_compute; reflexivity|]. split; reflexivity. Qed.

(** C2 fails on the code: when teardown finds the thread in [g_usleep] or
    still in the armed wait, the signal of line 325 is lost or consumed
    before the thread reaches the wait of line 205; the thread then raises
    once more and blocks in that wait with the stop flag set, and the join
    of line 326 never returns. *)
Theorem teardown_leaves_forcer_blocked :
  (exists tr s,
     exec teardown_mid_sleep (plugged false 3) = Some (tr, s)
     /\ stuck s
     /\ step (AForcer 0) s = None /\ step AUninit s = None)
  /\ (exists tr s,
        exec teardown_armed_wait (plugged false 3) = Some (tr, s)
        /\ stuck s
        /\ step (AForcer 0) s = None /\ step AUninit s = None).
Proof.
  split; do 2 eexists; (split; [vm_compute; reflexivity|]);
    (split; [repeat split|]); split; reflexivity.
Qed.

(** * Further properties *)

(** ** Locks and waiters *)

Lemma lock_inv_step (a : action) (s : Sys) (e : event) (s' : Sys) :
  lock_inv s -> step a s = Some (e, s') -> lock_inv s'.
Proof.
  intros (Ht & Hc & Hw) H. unfold lock_inv in *.
  step_cases H; unfold waiting in *; simpl in *; subst.
  all: try (destruct Hw as [Hw|[Hw Hp]]; subst; simpl in *; try discriminate).
  all: solve [repeat split; auto; try (destruct l; simpl in *; auto; discriminate)].
Qed.

Lemma lock_inv_plugged (msi : bool) (sock : Z) : lock_inv (plugged msi sock).
Proof. unfold lock_inv. simpl. repeat split. left. reflexivity. Qed.

Lemma lock_inv_reachable (msi : bool) (sock : Z) (acts : list action)
  (tr : list event) (s : Sys) :
  exec acts (plugged msi sock) = Some (tr, s) -> lock_inv s.
Proof.
  apply (exec_state_invariant lock_inv lock_inv_step); apply lock_inv_plugged.
Qed.

(** X1: in every execution each mutex is owned, between steps, by the
    forcer thread exactly inside its critical sections (lines 174-176 and
    202-212 for [thr_mutex], lines 193-195 for [conf_mutex]) and by nobody
    otherwise; and the only waiter the condition variable ever has is the
    forcer thread inside one of its two [qemu_cond_wait] calls. *)
Theorem locks_follow_critical_sections
  (msi : bool) (sock : Z) (acts : list action) (tr : list event) (s : Sys) :
  exec acts (plugged msi sock) = Some (tr, s) ->
  thr_mutex (fx s) = (if holds_thr_mutex (pc (thr s)) then Some Forcer else None)
  /\ conf_mutex (fx s) = (if holds_conf_mutex (pc (thr s)) then Some Forcer else None)
  /\ (thr_cond (fx s) = []
      \/ (thr_cond (fx s) = [Forcer] /\ in_cond_wait (pc (thr s)) = true)).
Proof. intros He. exact (lock_inv_reachable msi sock acts tr s He). Qed.

Lemma locks_follow_critical_sections_witness :
  exists tr s,
    exec (firstn 27 two_cycles) (plugged true 3) = Some (tr, s)
    /\ pc (thr s) = L203
    /\ thr_mutex (fx s) = Some Forcer
    /\ conf_mutex (fx s) = None
    /\ thr_cond (fx s) = [].
Proof.
  do 2 eexists. split; [vm_compute; reflexivity|].
  destruct (locks_follow_critical_sections true 3 (firstn 27 two_cycles) _ _
              ltac:(vm_compute; reflexivity)) as (H1 & H2 & _).
  split; [reflexivity|]. split; [exact H1|]. split; [exact H2 | reflexivity].
Defined.

(** X2: whenever a mutex is owned, its owner can take a step: a register
    write or a teardown that has to wait for [thr_mutex], or a publication
    that has to wait for [conf_mutex], waits for a thread that is not
    itself blocked. *)
Theorem lock_holder_can_step
  (msi : bool) (sock : Z) (acts : list action) (tr : list event) (s : Sys) (r : Z) :
  exec acts (plugged msi sock) = Some (tr, s) ->
  thr_mutex (fx s) <> None \/ conf_mutex (fx s) <> None ->
  exists e s', step (AForcer r) s = Some (e, s').
Proof.
  intros He Hl. destruct (lock_inv_reachable msi sock acts tr s He) as (Ht & Hc & Hw).
  destruct s as [[[m lv lg] mx cv stp irq live cmx csi lfd cfd] [l iv bf ac] [ph hs fds] c].
  simpl in *.
  destruct l; simpl in *; subst;
    try (destruct Hl as [Hl|Hl]; congruence);
    cbv [step forcer_step wait_device_driver fx_forcer_thread fx_raise_irq_stmt];
    run; simpl.
  all: try (do 2 eexists; reflexivity).
  all: try (destruct stp; do 2 eexists; reflexivity).
  all: try (destruct (irq =? 0); do 2 eexists; reflexivity).
  all: destruct m; do 2 eexists; reflexivity.
Qed.

Lemma lock_holder_can_step_witness :
  exists e s',
    step (AForcer 0) pending_msi_device = Some (e, s').
Proof.
  apply (lock_holder_can_step true 3 (firstn 27 two_cycles)
           [EvTau; EvTau; EvWrite 0x30 0 4; EvTau; EvTau; EvRandom 12345; EvTau;
            EvConfRead 10; EvTau; EvSleep 10 1002345; EvTau; EvRaise; EvTau;
            EvTau; EvTau; EvTau; EvTau;
            EvWrite 0x08 0 4; EvTau; EvTau; EvTau; EvRandom 777; EvTau;
            EvConfRead 10; EvTau; EvSleep 10 1000777; EvTau]
           pending_msi_device 0).
  - vm_compute. reflexivity.
  - left. vm_compute. discriminate.
Defined.

(** ** The interrupt mask *)

Lemma not32_land_ones (v : Z) : not32 v = Z.land (Z.lnot v) (Z.ones 32).
Proof. unfold not32, u32. rewrite Z.land_ones by lia. reflexivity. Qed.

Lemma land_not32_self (v : Z) : Z.land v (not32 v) = 0.
Proof.
  rewrite not32_land_ones, Z.land_assoc, Z.land_lnot_diag. apply Z.land_0_l.
Qed.

Lemma lor_land_not32 (a v : Z) :
  Z.land (Z.lor a v) (not32 v) = Z.land a (not32 v).
Proof.
  rewrite Z.land_lor_distr_l, land_not32_self. apply Z.lor_0_r.
Qed.

Lemma lor_one_nonzero (a : Z) : (Z.lor a 1 =? 0) = false.
Proof.
  apply Z.eqb_neq. intros H. apply Z.lor_eq_0_iff in H. destruct H. discriminate.
Qed.

Lemma bit_lor_one (b : Z) : bit b -> Z.lor b 1 = 1.
Proof. intros [->| ->]; reflexivity. Qed.

Lemma bit_land (b n : Z) : bit b -> bit (Z.land b n).
Proof.
  intros [->| ->]; unfold bit.
  - left. apply Z.land_0_l.
  - assert (H : Z.land 1 n = n mod 2).
    { rewrite Z.land_comm. exact (Z.land_ones n 1 ltac:(lia)). }
    rewrite H. pose proof (Z.mod_pos_bound n 2). lia.
Qed.

Lemma mask_inv_step (a : action) (s : Sys) (e : event) (s' : Sys) :
  mask_inv s -> step a s = Some (e, s') -> mask_inv s'.
Proof.
  intros (Hi & Ha & Hr) H. unfold mask_inv in *.
  step_cases H; simpl in *; repeat split;
    try assumption; try (apply bit_land; assumption);
    rewrite bit_lor_one by assumption; right; reflexivity.
Qed.

Lemma mask_inv_plugged (msi : bool) (sock : Z) : mask_inv (plugged msi sock).
Proof. unfold mask_inv, bit. simpl. repeat split; left; reflexivity. Qed.

(** X3: in every execution, with the acknowledge write landing anywhere
    between the loads and stores of a raise, the interrupt mask holds
    nothing but cause bit 0: it is 0 or 1, and so is what the status
    register reads. *)
Theorem only_cause_bit_0_is_ever_pending
  (msi : bool) (sock : Z) (acts : list action) (tr : list event) (s : Sys) :
  exec acts (plugged msi sock) = Some (tr, s) ->
  (irq_status (fx s) = 0 \/ irq_status (fx s) = 1)
  /\ fx_mmio_read INTERRUPT_STATUS_REGISTER 4 s = Some (irq_status (fx s), s).
Proof.
  intros He. split; [|reflexivity].
  apply (exec_state_invariant mask_inv mask_inv_step acts (plugged msi sock) tr s
           (mask_inv_plugged msi sock) He).
Qed.

Lemma only_cause_bit_0_is_ever_pending_witness :
  exists tr s,
    exec (ack_races_raise ++ [AMmioWrite INTERRUPT_ACK_REGISTER 0xfe 4; AAccess;
                              AAccess; AMmioWrite INTERRUPT_RAISE_REGISTER 0xff 4])
      (plugged false 3) = Some (tr, s)
    /\ (irq_status (fx s) = 0 \/ irq_status (fx s) = 1)
    /\ fx_mmio_read INTERRUPT_STATUS_REGISTER 4 s = Some (irq_status (fx s), s).
Proof.
  do 2 eexists. split; [vm_compute; reflexivity|].
  pose proof (only_cause_bit_0_is_ever_pending false 3
                (ack_races_raise ++ [AMmioWrite INTERRUPT_ACK_REGISTER 0xfe 4;
                                     AAccess; AAccess;
                                     AMmioWrite INTERRUPT_RAISE_REGISTER 0xff 4])
                _ _ ltac:(vm_compute; reflexivity)) as H.
  exact H.
Defined.

Lemma raises_rev (tr : list event) : raises (rev tr) = raises tr.
Proof.
  unfold raises. induction tr as [|e tr IH]; simpl; [reflexivity|].
  rewrite filter_app, length_app, IH. simpl.
  destruct (is_raise e); simpl; lia.
Qed.

Lemma mode_inv_step (msi : bool) (a : action) (s : Sys) (e : event)
  (s' : Sys) (past : list event) :
  mode_inv msi past s -> step a s = Some (e, s') -> mode_inv msi (e :: past) s'.
Proof.
  intros (Hm & Hsig) H. unfold mode_inv, raises, bit in *.
  step_cases H; simpl in *; subst; simpl in *.
  all: try (split; [reflexivity|]; exact Hsig).
  all: split; [reflexivity|].
  all: try destruct m; simpl in *; destruct Hsig as (H1 & H2 & H3);
       try congruence;
       repeat split; try assumption; try discriminate; try lia; auto.
Qed.

Lemma mode_inv_plugged (msi : bool) (sock : Z) :
  mode_inv msi [] (plugged msi sock).
Proof.
  unfold mode_inv, bit. simpl. destruct msi; repeat split;
    try discriminate; auto.
Qed.

Lemma mode_inv_reachable (msi : bool) (sock : Z) (acts : list action)
  (tr : list event) (s : Sys) :
  exec acts (plugged msi sock) = Some (tr, s) -> mode_inv msi (rev tr) s.
Proof.
  intros He.
  pose proof (exec_invariant (mode_inv msi) (mode_inv_step msi) acts
                (plugged msi sock) [] tr s (mode_inv_plugged msi sock) He) as H.
  rewrite app_nil_r in H. exact H.
Qed.

(** X4: with MSI off, in every execution no MSI message is ever sent and
    the INTx pin is at level 0 or 1. *)
Theorem level_mode_sends_no_message
  (sock : Z) (acts : list action) (tr : list event) (s : Sys) :
  exec acts (plugged false sock) = Some (tr, s) ->
  msi_log (pdev (fx s)) = []
  /\ (intx_level (pdev (fx s)) = 0 \/ intx_level (pdev (fx s)) = 1).
Proof.
  intros He. destruct (mode_inv_reachable false sock acts tr s He) as (_ & H).
  simpl in H. destruct H as (H1 & _ & H3). split; assumption.
Qed.

Lemma level_mode_sends_no_message_witness :
  exists tr s,
    exec ack_races_raise (plugged false 3) = Some (tr, s)
    /\ msi_log (pdev (fx s)) = []
    /\ (intx_level (pdev (fx s)) = 0 \/ intx_level (pdev (fx s)) = 1).
Proof.
  do 2 eexists. split; [vm_compute; reflexivity|].
  pose proof (level_mode_sends_no_message 3 ack_races_raise _ _
                ltac:(vm_compute; reflexivity)) as H.
  exact H.
Defined.

(** X5: with MSI on, in every execution the INTx pin stays low and the
    forcer thread sends at most one message per raise: the messages sent
    never outnumber the raises begun.  (A raise sends none when an
    acknowledge clears the mask before the test of line 96.) *)
Theorem msi_mode_sends_at_most_one_message_per_raise
  (sock : Z) (acts : list action) (tr : list event) (s : Sys) :
  exec acts (plugged true sock) = Some (tr, s) ->
  (notifications s <= raises tr)%nat /\ intx_level (pdev (fx s)) = 0.
Proof.
  intros He. destruct (mode_inv_reachable true sock acts tr s He) as (_ & H).
  simpl in H. destruct H as (H1 & _ & H3). rewrite raises_rev in H3.
  unfold notifications. split; [lia | exact H1].
Qed.

Lemma msi_mode_sends_at_most_one_message_per_raise_witness :
  exists tr s,
    exec two_cycles (plugged true 3) = Some (tr, s)
    /\ raises tr = 2%nat
    /\ (notifications s <= raises tr)%nat
    /\ intx_level (pdev (fx s)) = 0.
Proof.
  do 2 eexists. split; [vm_compute; reflexivity|]. split; [reflexivity|].
  pose proof (msi_mode_sends_at_most_one_message_per_raise 3 two_cycles _ _
                ltac:(vm_compute; reflexivity)) as H.
  exact H.
Defined.

Lemma land_not32_then_val (a v : Z) : Z.land (Z.land a (not32 v)) v = 0.
Proof.
  rewrite <- Z.land_assoc, (Z.land_comm (not32 v)), land_not32_self.
  apply Z.land_0_r.
Qed.

(** X6: raising cause bits and then lowering the same bits leaves the
    mask that was there before with those bits cleared: none of the bits
    just lowered stays pending, whatever was pending before. *)
Theorem raise_then_lower_same_bits (s : Sys) (val : Z) :
  exists s',
    (fx_raise_irq val ;; fx_lower_irq val) s = Some (tt, s')
    /\ irq_status (fx s') = Z.land (irq_status (fx s)) (not32 val)
    /\ Z.land (irq_status (fx s')) val = 0.
Proof.
  destruct s as [[[m lv lg] mx cv stp irq live cmx csi lfd cfd] t r c].
  unfold fx_raise_irq, fx_lower_irq. run. simpl.
  destruct m; destruct (Z.lor irq val =? 0); simpl;
    rewrite lor_land_not32;
    destruct (Z.land irq (not32 val) =? 0); simpl;
    eexists; (split; [reflexivity|]); simpl;
    (split; [reflexivity | apply land_not32_then_val]).
Qed.

(** ** The armed wait and the exit *)

Lemma existsb_reversed (f : event -> bool) (l : list event) :
  existsb f (rev l) = existsb f l.
Proof.
  induction l as [|e l IH]; simpl; [reflexivity|].
  rewrite existsb_app, IH. simpl. rewrite orb_false_r. apply orb_comm.
Qed.

Lemma armed_inv_step (a : action) (s : Sys) (e : event) (s' : Sys) (past : list event) :
  armed_inv past s -> step a s = Some (e, s') -> armed_inv (e :: past) s'.
Proof.
  intros HI H. unfold armed_inv in *.
  step_cases H; unfold waiting in *; simpl in *; intros Hn;
    try (apply orb_false_iff in Hn; destruct Hn as [Hn1 Hn]);
    try discriminate;
    try (destruct (HI Hn) as (Ha & Hw & Hr & Hi & Hg); simpl in *;
         try discriminate).
  all: try solve [subst; rewrite ?Z.land_0_l; repeat split; auto;
                  try discriminate;
                  intros; rewrite ?waiting_after_sleep; auto].
  all: try (rewrite Hw in E0 by reflexivity; discriminate).
  all: unfold rendezvous_write in Hn1;
       repeat match goal with
              | E : negb _ = false |- _ => apply negb_false_iff in E
              | E : (_ =? _) = _ |- _ => rewrite E in Hn1
              end; simpl in Hn1; rewrite ?orb_true_r in Hn1; discriminate.
Qed.

Lemma armed_inv_plugged (msi : bool) (sock : Z) : armed_inv [] (plugged msi sock).
Proof. intros _. simpl. repeat split. discriminate. Qed.

(** X7: as long as no 4-byte start or schedule-next write and no teardown
    signal has happened, the forcer thread is still in
    [wait_device_driver], it has raised nothing, and the mask is zero -
    whatever else the guest wrote and whatever was published. *)
Theorem no_raise_before_first_signal
  (msi : bool) (sock : Z) (acts : list action) (tr : list event) (s : Sys) :
  exec acts (plugged msi sock) = Some (tr, s) ->
  existsb is_signal tr = false ->
  existsb is_raise tr = false
  /\ armed (pc (thr s)) = true
  /\ irq_status (fx s) = 0.
Proof.
  intros He Hn.
  pose proof (exec_invariant armed_inv armed_inv_step acts (plugged msi sock) []
                tr s (armed_inv_plugged msi sock) He) as H.
  rewrite app_nil_r in H. unfold armed_inv in H.
  rewrite !existsb_reversed in H. destruct (H Hn) as (Ha & _ & Hr & Hi & _).
  split; [exact Hr|]. split; [exact Ha | exact Hi].
Qed.

Lemma no_raise_before_first_signal_witness :
  exists tr s,
    exec [AForcer 0; AForcer 0; AMmioWrite INTERRUPT_ACK_REGISTER 1 4;
          AMmioWrite START_THREAD_REGISTER 0 2; AAccept 4]
      (plugged false 3) = Some (tr, s)
    /\ existsb is_raise tr = false
    /\ armed (pc (thr s)) = true
    /\ irq_status (fx s) = 0.
Proof.
  do 2 eexists. split; [vm_compute; reflexivity|].
  pose proof (no_raise_before_first_signal false 3
           [AForcer 0; AForcer 0; AMmioWrite INTERRUPT_ACK_REGISTER 1 4;
            AMmioWrite START_THREAD_REGISTER 0 2; AAccept 4] _ _
           ltac:(vm_compute; reflexivity) ltac:(vm_compute; reflexivity)) as H.
  vm_compute in H |- *. exact H.
Defined.

Lemma exit_inv_step (a : action) (s : Sys) (e : event) (s' : Sys) :
  exit_inv s -> step a s = Some (e, s') -> exit_inv s'.
Proof.
  intros (Hs & He & Hu & Hp) H. unfold exit_inv in *.
  step_cases H; simpl in *; subst.
  all: solve [repeat split; auto; try discriminate; try congruence;
              try (symmetry; assumption);
              try (intros Hq; specialize (Hp Hq); discriminate)].
Qed.

Lemma exit_inv_plugged (msi : bool) (sock : Z) : exit_inv (plugged msi sock).
Proof. unfold exit_inv. simpl. repeat split; discriminate. Qed.

Lemma exit_inv_reachable (msi : bool) (sock : Z) (acts : list action)
  (tr : list event) (s : Sys) :
  exec acts (plugged msi sock) = Some (tr, s) -> exit_inv s.
Proof.
  apply (exec_state_invariant exit_inv exit_inv_step); apply exit_inv_plugged.
Qed.

(** X8: while the device is realized the stop flag is clear and the
    forcer thread has not left its loop. *)
Theorem thread_runs_while_realized
  (msi : bool) (sock : Z) (acts : list action) (tr : list event) (s : Sys) :
  exec acts (plugged msi sock) = Some (tr, s) ->
  life (io s) = Realized ->
  stopping (fx s) = false /\ exiting (pc (thr s)) = false.
Proof.
  intros He Hl. destruct (exit_inv_reachable msi sock acts tr s He) as (Hs & Hx & _).
  rewrite Hl in Hs. simpl in Hs. split; [exact Hs|].
  destruct (exiting (pc (thr s))); [|reflexivity].
  rewrite Hx in Hs by reflexivity. discriminate.
Qed.

Lemma thread_runs_while_realized_witness :
  exists tr s,
    exec two_cycles (plugged false 3) = Some (tr, s)
    /\ stopping (fx s) = false /\ exiting (pc (thr s)) = false.
Proof.
  do 2 eexists. split; [vm_compute; reflexivity|].
  pose proof (thread_runs_while_realized false 3 two_cycles _ _
                ltac:(vm_compute; reflexivity) ltac:(reflexivity)) as H.
  vm_compute in H |- *. exact H.
Defined.

(** X9: once [pci_fx_uninit] has passed the join, the forcer thread has
    returned with the stop flag set and neither mutex is owned. *)
Theorem unplugged_only_after_thread_returned
  (msi : bool) (sock : Z) (acts : list action) (tr : list event) (s : Sys) :
  exec acts (plugged msi sock) = Some (tr, s) ->
  life (io s) = Unplugged ->
  pc (thr s) = L217 /\ stopping (fx s) = true
  /\ thr_mutex (fx s) = None /\ conf_mutex (fx s) = None.
Proof.
  intros He Hl. destruct (exit_inv_reachable msi sock acts tr s He) as (Hs & _ & _ & Hp).
  destruct (lock_inv_reachable msi sock acts tr s He) as (Ht & Hc & _).
  rewrite Hl in Hs. simpl in Hs. specialize (Hp Hl). rewrite Hp in Ht, Hc.
  simpl in Ht, Hc. repeat split; assumption.
Qed.

Lemma unplugged_only_after_thread_returned_witness :
  exists tr s,
    exec teardown_in_rendezvous (plugged false 3) = Some (tr, s)
    /\ pc (thr s) = L217 /\ stopping (fx s) = true
    /\ thr_mutex (fx s) = None /\ conf_mutex (fx s) = None.
Proof.
  do 2 eexists. split; [vm_compute; reflexivity|].
  pose proof (unplugged_only_after_thread_returned false 3 teardown_in_rendezvous
                _ _ ltac:(vm_compute; reflexivity) ltac:(reflexivity)) as H.
  vm_compute in H |- *. exact H.
Defined.

(** ** Signals and progress *)

(** X10: signals are not remembered.  A 4-byte start or schedule-next
    write that arrives while the forcer thread is neither in a
    [qemu_cond_wait] nor inside a [thr_mutex] critical section (so while
    it draws the random value, reads the interval or sleeps) changes
    nothing at all in the device. *)
Theorem rendezvous_write_without_waiter_is_lost
  (msi : bool) (sock : Z) (acts : list action) (tr : list event) (s : Sys)
  (addr val : Z) :
  exec acts (plugged msi sock) = Some (tr, s) ->
  addr = START_THREAD_REGISTER \/ addr = SCHEDULE_NEXT_REGISTER ->
  holds_thr_mutex (pc (thr s)) = false ->
  in_cond_wait (pc (thr s)) = false ->
  fx_mmio_write Iothread addr val 4 s = Some (tt, s).
Proof.
  intros He Ha Hh Hw.
  destruct (lock_inv_reachable msi sock acts tr s He) as (Ht & _ & Hc).
  rewrite Hh in Ht. destruct Hc as [Hc|[_ Hc]]; [|congruence].
  destruct s as [[[m lv lg] mx cv stp irq live cmx csi lfd cfd] t r c].
  simpl in *. subst mx cv.
  destruct Ha as [-> | ->]; reflexivity.
Qed.

Lemma rendezvous_write_without_waiter_is_lost_witness :
  exists tr s,
    exec (firstn 9 two_cycles) (plugged false 3) = Some (tr, s)
    /\ pc (thr s) = L197
    /\ fx_mmio_write Iothread SCHEDULE_NEXT_REGISTER 0 4 s = Some (tt, s).
Proof.
  do 2 eexists. split; [vm_compute; reflexivity|]. split; [reflexivity|].
  apply (rendezvous_write_without_waiter_is_lost false 3 (firstn 9 two_cycles)
           [EvTau; EvTau; EvWrite 0x30 0 4; EvTau; EvTau; EvRandom 12345; EvTau;
            EvConfRead 10; EvTau]);
    [vm_compute; reflexivity | right; reflexivity | reflexivity | reflexivity].
Defined.

(** X11: on the realized device, when the forcer thread is in the wait
    of line 205, a 4-byte start or schedule-next write lets it take three
    steps to the top of its loop (line 191), with the stop flag clear and
    the mask as it was. *)
Theorem rendezvous_write_starts_next_cycle
  (msi : bool) (sock : Z) (acts : list action) (tr : list event) (s : Sys)
  (addr val r1 r2 r3 : Z) :
  exec acts (plugged msi sock) = Some (tr, s) ->
  addr = START_THREAD_REGISTER \/ addr = SCHEDULE_NEXT_REGISTER ->
  pc (thr s) = L205w ->
  life (io s) = Realized ->
  exists s',
    exec [AMmioWrite addr val 4; AForcer r1; AForcer r2; AForcer r3] s
    = Some ([EvWrite addr (u64 val) 4; EvTau; EvTau; EvTau], s')
    /\ pc (thr s') = L191
    /\ irq_status (fx s') = irq_status (fx s)
    /\ stopping (fx s') = false.
Proof.
  intros He Ha Hpc Hl.
  destruct (lock_inv_reachable msi sock acts tr s He) as (Ht & _ & Hc).
  destruct (exit_inv_reachable msi sock acts tr s He) as (Hs & _).
  destruct s as [[[m lv lg] mx cv stp irq live cmx csi lfd cfd] [l iv bf ac] [ph hs fds] c].
  simpl in Hpc, Hl, Hs, Ht, Hc. subst l ph stp. simpl in Ht. subst mx.
  destruct Hc as [-> | [-> _]]; destruct Ha as [-> | ->];
    (eexists; split;
     [repeat (eapply exec_cons; [step_eq|]); apply exec_nil | repeat split]).
Qed.

Lemma rendezvous_write_starts_next_cycle_witness :
  exists s s',
    exec (firstn 17 two_cycles) (plugged false 3)
    = Some ([EvTau; EvTau; EvWrite 0x30 0 4; EvTau; EvTau; EvRandom 12345; EvTau;
             EvConfRead 10; EvTau; EvSleep 10 1002345; EvTau; EvRaise; EvTau;
             EvTau; EvTau; EvTau; EvTau], s)
    /\ exec [AMmioWrite SCHEDULE_NEXT_REGISTER 0 4; AForcer 0; AForcer 0; AForcer 0] s
       = Some ([EvWrite SCHEDULE_NEXT_REGISTER (u64 0) 4; EvTau; EvTau; EvTau], s')
    /\ pc (thr s') = L191
    /\ irq_status (fx s') = irq_status (fx s)
    /\ stopping (fx s') = false.
Proof.
  eexists.
  assert (He : exec (firstn 17 two_cycles) (plugged false 3)
               = Some ([EvTau; EvTau; EvWrite 0x30 0 4; EvTau; EvTau; EvRandom 12345;
                        EvTau; EvConfRead 10; EvTau; EvSleep 10 1002345; EvTau;
                        EvRaise; EvTau; EvTau; EvTau; EvTau; EvTau], _))
    by (vm_compute; reflexivity).
  destruct (rendezvous_write_starts_next_cycle false 3 _ _ _
              SCHEDULE_NEXT_REGISTER 0 0 0 0 He
              (or_intror eq_refl) eq_refl eq_refl) as (s' & H).
  exists s'. split; [exact He | exact H].
Defined.

(** ** Teardown *)

(** X12: when teardown finds the forcer thread in the wait of line 205,
    the thread wakes, sees the stop flag and returns, and the join
    succeeds; the listening descriptor is closed, while the fd handlers
    stay registered as they were. *)
Theorem teardown_at_rendezvous_wait_joins
  (msi : bool) (sock : Z) (acts : list action) (tr : list event) (s : Sys)
  (r1 r2 r3 : Z) :
  exec acts (plugged msi sock) = Some (tr, s) ->
  pc (thr s) = L205w ->
  life (io s) = Realized ->
  exists s',
    exec [AUninit; AUninit; AForcer r1; AForcer r2; AForcer r3; AUninit] s
    = Some ([EvStop; EvStopSignal; EvTau; EvTau; EvExit; EvJoin], s')
    /\ pc (thr s') = L217
    /\ life (io s') = Unplugged
    /\ irq_status (fx s') = irq_status (fx s)
    /\ ~ In (listen_fd (fx s)) (open_fds (io s'))
    /\ fd_handlers (io s') = fd_handlers (io s).
Proof.
  intros He Hpc Hl.
  destruct (lock_inv_reachable msi sock acts tr s He) as (Ht & _ & Hc).
  destruct s as [[[m lv lg] mx cv stp irq live cmx csi lfd cfd] [l iv bf ac] [ph hs fds] c].
  simpl in Hpc, Hl, Ht, Hc. subst l ph. simpl in Ht. subst mx.
  destruct Hc as [-> | [-> _]];
    (eexists; split;
     [repeat (eapply exec_cons; [step_eq|]); apply exec_nil | ]);
    (split; [reflexivity|]); (split; [reflexivity|]); (split; [reflexivity|]);
    (split; [apply closed_not_open | reflexivity]).
Qed.

Lemma teardown_at_rendezvous_wait_joins_witness :
  exists s s',
    exec (firstn 17 two_cycles) (plugged false 3)
    = Some ([EvTau; EvTau; EvWrite 0x30 0 4; EvTau; EvTau; EvRandom 12345; EvTau;
             EvConfRead 10; EvTau; EvSleep 10 1002345; EvTau; EvRaise; EvTau;
             EvTau; EvTau; EvTau; EvTau], s)
    /\ exec [AUninit; AUninit; AForcer 0; AForcer 0; AForcer 0; AUninit] s
       = Some ([EvStop; EvStopSignal; EvTau; EvTau; EvExit; EvJoin], s')
    /\ pc (thr s') = L217
    /\ life (io s') = Unplugged
    /\ irq_status (fx s') = irq_status (fx s)
    /\ ~ In (listen_fd (fx s)) (open_fds (io s'))
    /\ fd_handlers (io s') = fd_handlers (io s).
Proof.
  eexists.
  assert (He : exec (firstn 17 two_cycles) (plugged false 3)
               = Some ([EvTau; EvTau; EvWrite 0x30 0 4; EvTau; EvTau; EvRandom 12345;
                        EvTau; EvConfRead 10; EvTau; EvSleep 10 1002345; EvTau;
                        EvRaise; EvTau; EvTau; EvTau; EvTau; EvTau], _))
    by (vm_compute; reflexivity).
  destruct (teardown_at_rendezvous_wait_joins false 3 _ _ _ 0 0 0 He
              eq_refl eq_refl) as (s' & H).
  exists s'. split; [exact He | exact H].
Defined.

(** X13: when teardown finds the forcer thread at [g_usleep] and runs
    lines 322-325 before the sleep ends, the thread sleeps, runs the whole
    of [fx_raise_irq] and then blocks in the wait of line 205 with the stop
    flag set while [pci_fx_uninit] blocks in the join. *)
Theorem teardown_during_sleep_deadlocks
  (msi : bool) (sock : Z) (acts : list action) (tr : list event) (s : Sys)
  (r1 r2 r3 r4 r5 r6 r7 r8 : Z) :
  exec acts (plugged msi sock) = Some (tr, s) ->
  pc (thr s) = L197 ->
  life (io s) = Realized ->
  exists u s',
    exec [AUninit; AUninit; AForcer r1; AForcer r2; AForcer r3; AForcer r4;
          AForcer r5; AForcer r6; AForcer r7; AForcer r8] s
    = Some ([EvStop; EvStopSignal; EvSleep (interval (thr s)) u; EvTau; EvRaise;
             EvTau; EvTau; EvTau; EvTau; EvTau], s')
    /\ stuck s'.
Proof.
  intros He Hpc Hl.
  destruct (lock_inv_reachable msi sock acts tr s He) as (Ht & _ & Hc).
  destruct s as [[[m lv lg] mx cv stp irq live cmx csi lfd cfd] [l iv bf ac] [ph hs fds] c].
  simpl in Hpc, Hl, Ht, Hc. subst l ph. simpl in Ht. subst mx.
  destruct Hc as [-> | [_ Hc]]; [|discriminate].
  destruct m;
    (do 2 eexists; split;
     [ do 6 (eapply exec_cons; [step_eq|]);
       eapply exec_cons; [step_run; rewrite lor_one_nonzero; reflexivity|];
       do 3 (eapply exec_cons; [step_eq|]); apply exec_nil
     | repeat split ]).
Qed.

Lemma teardown_during_sleep_deadlocks_witness :
  exists s u s',
    exec (firstn 9 two_cycles) (plugged false 3)
    = Some ([EvTau; EvTau; EvWrite 0x30 0 4; EvTau; EvTau; EvRandom 12345; EvTau;
             EvConfRead 10; EvTau], s)
    /\ exec [AUninit; AUninit; AForcer 0; AForcer 0; AForcer 0; AForcer 0;
             AForcer 0; AForcer 0; AForcer 0; AForcer 0] s
       = Some ([EvStop; EvStopSignal; EvSleep (interval (thr s)) u; EvTau;
                EvRaise; EvTau; EvTau; EvTau; EvTau; EvTau], s')
    /\ stuck s'.
Proof.
  eexists.
  assert (He : exec (firstn 9 two_cycles) (plugged false 3)
               = Some ([EvTau; EvTau; EvWrite 0x30 0 4; EvTau; EvTau; EvRandom 12345;
                        EvTau; EvConfRead 10; EvTau], _)) by (vm_compute; reflexivity).
  destruct (teardown_during_sleep_deadlocks false 3 _ _ _ 0 0 0 0 0 0 0 0 He
              eq_refl eq_refl) as (u & s' & H).
  exists u, s'. split; [exact He | exact H].
Defined.

(** ** Connections *)

Lemma remove_absent_handler (fd : Z) (h : list (Z * callback)) :
  handler_of fd h = None -> remove_handler fd h = h.
Proof.
  induction h as [|[fd' cb] h IH]; simpl; intros H; [reflexivity|].
  destruct (fd' =? fd); [discriminate|]. rewrite IH by exact H. reflexivity.
Qed.

Lemma filter_absent_fd (fd : Z) (l : list Z) :
  ~ In fd l -> filter (fun x => negb (x =? fd)) l = l.
Proof.
  induction l as [|x l IH]; simpl; intros H; [reflexivity|].
  destruct (x =? fd) eqn:E.
  - apply Z.eqb_eq in E. exfalso. apply H. left. exact E.
  - simpl. rewrite IH; [reflexivity|]. intros Hin. apply H. right. exact Hin.
Qed.

(** X14: accepting a connection and serving its read leaves the set of
    registered handlers and of open descriptors as before the accept, for
    a fresh descriptor: a connection is used once and leaves nothing
    behind but the published interval. *)
Theorem connection_is_one_shot (s : Sys) (newfd : Z) (x : recv) :
  conf_mutex (fx s) = None ->
  handler_of newfd (fd_handlers (io s)) = None ->
  ~ In newfd (open_fds (io s)) ->
  exists s',
    (accept_conf_server_callback newfd ;; read_conf_server_callback x) s
    = Some (tt, s')
    /\ fd_handlers (io s') = fd_handlers (io s)
    /\ open_fds (io s') = open_fds (io s)
    /\ conf_sleep_interval (fx s') = interval_after_read x
    /\ conn_fd (fx s') = newfd.
Proof.
  intros Hm Hh Ho.
  destruct s as [[[m lv lg] mx cv stp irq live cmx csi lfd cfd] t [ph hs fds] c].
  simpl in *. subst cmx.
  unfold accept_conf_server_callback, read_conf_server_callback. run. simpl.
  eexists. split; [reflexivity|]. simpl. rewrite Z.eqb_refl. simpl.
  rewrite !(remove_absent_handler newfd hs Hh).
  rewrite filter_absent_fd by exact Ho. repeat split.
Qed.

Lemma connection_is_one_shot_witness :
  exists s',
    (accept_conf_server_callback 4 ;;
     read_conf_server_callback (mkRecv BigEndian 0 (ReadBytes [0; 0; 0; 5])))
      (plugged false 3) = Some (tt, s')
    /\ fd_handlers (io s') = [(3, accept_cb)]
    /\ open_fds (io s') = [3]
    /\ conf_sleep_interval (fx s') = 5
    /\ conn_fd (fx s') = 4.
Proof.
  pose proof (connection_is_one_shot (plugged false 3) 4
                (mkRecv BigEndian 0 (ReadBytes [0; 0; 0; 5]))
                eq_refl eq_refl) as H.
  destruct H as (s' & H1 & H2 & H3 & H4 & H5).
  - simpl. intros [H|H]; [discriminate | exact H].
  - exists s'. split; [exact H1|]. split; [exact H2|]. split; [exact H3|].
    split; [rewrite H4; reflexivity | exact H5].
Defined.

(** X15: a second connection accepted before the first was served
    overwrites [conn_fd]: the read callback then serves and closes the
    second, and the first descriptor stays open with its handler
    registered. *)
Theorem second_accept_leaks_first_connection (s : Sys) (fd1 fd2 : Z) (x : recv) :
  conf_mutex (fx s) = None ->
  fd1 <> fd2 ->
  exists s',
    (accept_conf_server_callback fd1 ;; accept_conf_server_callback fd2 ;;
     read_conf_server_callback x) s = Some (tt, s')
    /\ conn_fd (fx s') = fd2
    /\ ~ In fd2 (open_fds (io s'))
    /\ handler_of fd2 (fd_handlers (io s')) = None
    /\ In fd1 (open_fds (io s'))
    /\ handler_of fd1 (fd_handlers (io s')) = Some read_cb.
Proof.
  intros Hm Hne.
  destruct s as [[[m lv lg] mx cv stp irq live cmx csi lfd cfd] t [ph hs fds] c].
  simpl in *. subst cmx.
  assert (E12 : (fd1 =? fd2) = false) by (apply Z.eqb_neq; exact Hne).
  unfold accept_conf_server_callback, read_conf_server_callback. run.
  cbn -[Z.eqb remove_handler filter handler_of interval_after_read].
  eexists. split; [reflexivity|].
  cbn -[Z.eqb interval_after_read].
  repeat (rewrite ?Z.eqb_refl, ?E12; cbn -[Z.eqb interval_after_read]).
  split; [reflexivity|]. split.
  - intros [H|H]; [congruence | exact (closed_not_open _ _ H)].
  - split; [apply handler_of_removed|]. split; [left|]; reflexivity.
Qed.

Lemma second_accept_leaks_first_connection_witness :
  exists s',
    (accept_conf_server_callback 4 ;; accept_conf_server_callback 5 ;;
     read_conf_server_callback (mkRecv LittleEndian 0 (ReadBytes [7; 0; 0; 0])))
      (plugged false 3) = Some (tt, s')
    /\ conn_fd (fx s') = 5
    /\ ~ In 5 (open_fds (io s'))
    /\ handler_of 5 (fd_handlers (io s')) = None
    /\ In 4 (open_fds (io s'))
    /\ handler_of 4 (fd_handlers (io s')) = Some read_cb.
Proof.
  apply (second_accept_leaks_first_connection (plugged false 3) 4 5
           (mkRecv LittleEndian 0 (ReadBytes [7; 0; 0; 0])));
    [reflexivity | discriminate].
Defined.

(** ** Values that stay in range *)

Lemma decode_le_range (bs : list Z) :
  0 <= decode_le bs < 256 ^ Z.of_nat (length bs).
Proof.
  induction bs as [|b bs IH]; [simpl; lia|].
  cbn [decode_le fold_right length].
  change (fold_right (fun b acc => b mod 256 + 256 * acc) 0 bs) with (decode_le bs).
  rewrite Nat2Z.inj_succ, Z.pow_succ_r by lia.
  pose proof (Z.mod_pos_bound b 256). nia.
Qed.

Lemma decode_range (e : endianness) (bs : list Z) :
  length bs = 4%nat -> 0 <= decode e bs < 2 ^ 32.
Proof.
  intros Hl. change (2 ^ 32) with (256 ^ Z.of_nat 4). rewrite <- Hl.
  destruct e; unfold decode; [apply decode_le_range|].
  rewrite <- (length_rev bs). apply decode_le_range.
Qed.

Lemma interval_after_read_range (x : recv) : 0 <= interval_after_read x < 2 ^ 32.
Proof.
  unfold interval_after_read. destruct (outcome x) as [|bs].
  - rewrite decode_encode. apply u32_range.
  - apply decode_range. rewrite length_app, length_skipn, encode_length.
    pose proof (firstn_le_length 4 bs). lia.
Qed.

Lemma range_inv_step (a : action) (s : Sys) (e : event) (s' : Sys) :
  range_inv s -> step a s = Some (e, s') -> range_inv s'.
Proof.
  intros (Hl & Hc & Hi & Hb) H. unfold range_inv in *.
  step_cases H; simpl in *;
    repeat split; try assumption; try apply Hc; try apply Hi; try apply Hb;
    try apply u32_range; apply interval_after_read_range.
Qed.

Lemma range_inv_plugged (msi : bool) (sock : Z) : range_inv (plugged msi sock).
Proof. unfold range_inv. simpl. unfold CONF_INTERVAL_DEFAULT. repeat split; lia. Qed.

Lemma range_inv_reachable (msi : bool) (sock : Z) (acts : list action)
  (tr : list event) (s : Sys) :
  exec acts (plugged msi sock) = Some (tr, s) -> range_inv s.
Proof.
  apply (exec_state_invariant range_inv range_inv_step); apply range_inv_plugged.
Qed.

(** X16: in every execution the liveness register reads 0xdeadbeef and
    the identification register reads 0x01000ed: nothing the guest, the
    operator or the thread does changes them. *)
Theorem identity_registers_are_constant
  (msi : bool) (sock : Z) (acts : list action) (tr : list event) (s : Sys) :
  exec acts (plugged msi sock) = Some (tr, s) ->
  fx_mmio_read CARD_LIVENESS_REGISTER 4 s = Some (0xdeadbeef, s)
  /\ fx_mmio_read ID_REGISTER 4 s = Some (0x01000ed, s).
Proof.
  intros He. destruct (range_inv_reachable msi sock acts tr s He) as (Hl & _).
  split; [|reflexivity].
  change (fx_mmio_read CARD_LIVENESS_REGISTER 4 s) with (Some (card_liveness (fx s), s)).
  rewrite Hl. reflexivity.
Qed.

Lemma identity_registers_are_constant_witness :
  exists tr s,
    exec teardown_mid_sleep (plugged true 3) = Some (tr, s)
    /\ fx_mmio_read CARD_LIVENESS_REGISTER 4 s = Some (0xdeadbeef, s)
    /\ fx_mmio_read ID_REGISTER 4 s = Some (0x01000ed, s).
Proof.
  do 2 eexists. split; [vm_compute; reflexivity|].
  pose proof (identity_registers_are_constant true 3 teardown_mid_sleep _ _
                ltac:(vm_compute; reflexivity)) as H.
  vm_compute in H |- *. exact H.
Defined.

(** X17: in every execution the published interval and the thread's copy
    of it fit an [unsigned int], and whatever interval the operator sends,
    the thread's sleep is never longer than 429506728 microseconds. *)
Theorem sleep_never_exceeds_cap
  (msi : bool) (sock : Z) (acts : list action) (tr : list event) (s : Sys) :
  exec acts (plugged msi sock) = Some (tr, s) ->
  0 <= conf_sleep_interval (fx s) < 2 ^ 32
  /\ 0 <= interval (thr s) < 2 ^ 32
  /\ (forall r, 0 <= sleep_usec (interval (thr s)) r <= 429506728).
Proof.
  intros He. destruct (range_inv_reachable msi sock acts tr s He) as (_ & Hc & Hi & _).
  split; [exact Hc|]. split; [exact Hi|]. intros r.
  rewrite sleep_usec_sum.
  pose proof (base_period_range (interval (thr s))).
  pose proof (jitter_range r) as Hj. unfold max_jitter, G_USEC_PER_SEC in Hj.
  change (1000000 / 100 - 1) with 9999 in Hj. lia.
Qed.

Lemma sleep_never_exceeds_cap_witness :
  exists tr s,
    exec [AAccept 4; AConfData (mkRecv LittleEndian 0 (ReadBytes [255; 255; 255; 255]));
          AForcer 0; AForcer 0; AMmioWrite 0x30 0 4; AForcer 0; AForcer 0;
          AForcer 1; AForcer 0; AForcer 0]
      (plugged false 3) = Some (tr, s)
    /\ conf_sleep_interval (fx s) = 4294967295
    /\ interval (thr s) = 4294967295
    /\ (forall r, 0 <= sleep_usec (interval (thr s)) r <= 429506728).
Proof.
  do 2 eexists. split; [vm_compute; reflexivity|].
  split; [reflexivity|]. split; [reflexivity|].
  apply (sleep_never_exceeds_cap false 3
           [AAccept 4; AConfData (mkRecv LittleEndian 0 (ReadBytes [255; 255; 255; 255]));
            AForcer 0; AForcer 0; AMmioWrite 0x30 0 4; AForcer 0; AForcer 0;
            AForcer 1; AForcer 0; AForcer 0]
           [EvAccept 4; EvPublish 4294967295; EvTau; EvTau; EvWrite 0x30 0 4; EvTau;
            EvTau; EvRandom 1; EvTau; EvConfRead 4294967295]).
  vm_compute. reflexivity.
Defined.

(** ** Sleep duration *)

(** X18: for an interval of at most 4294 the sleep is [interval] tenths
    of a second plus the random value modulo 10000 microseconds: at least
    the base period and less than 10 milliseconds more. *)
Theorem sleep_is_tenths_of_a_second (i r : Z) :
  0 <= i <= 4294 ->
  sleep_usec i r = i * 100000 + r mod 10000
  /\ i * 100000 <= sleep_usec i r < i * 100000 + 10000.
Proof.
  intros H. rewrite sleep_usec_sum, base_period_no_wrap by exact H.
  unfold jitter, G_USEC_PER_SEC. change (1000000 / 100) with 10000.
  pose proof (Z.mod_pos_bound r 10000). lia.
Qed.

Lemma sleep_is_tenths_of_a_second_witness :
  sleep_usec 10 12345 = 10 * 100000 + 12345 mod 10000
  /\ 10 * 100000 <= sleep_usec 10 12345 < 10 * 100000 + 10000.
Proof. apply (sleep_is_tenths_of_a_second 10 12345). lia. Defined.

(** ** Register writes *)

Lemma land_subset (a b : Z) : Z.land (Z.land a b) a = Z.land a b.
Proof.
  rewrite (Z.land_comm (Z.land a b) a), Z.land_assoc, Z.land_diag. reflexivity.
Qed.

(** X19: a register write, whatever its offset, width and value, never
    raises: it sets no mask bit, sends no MSI message and does not assert
    the line; it leaves the stop flag, the published interval, the forcer
    thread and the fd handlers alone. *)
Theorem register_write_never_raises (t : thread_id) (addr val size : Z) (s s' : Sys) :
  fx_mmio_write t addr val size s = Some (tt, s') ->
  Z.land (irq_status (fx s')) (irq_status (fx s)) = irq_status (fx s')
  /\ msi_log (pdev (fx s')) = msi_log (pdev (fx s))
  /\ (intx_level (pdev (fx s')) = intx_level (pdev (fx s))
      \/ intx_level (pdev (fx s')) = 0)
  /\ stopping (fx s') = stopping (fx s)
  /\ conf_sleep_interval (fx s') = conf_sleep_interval (fx s)
  /\ thr s' = thr s
  /\ io s' = io s.
Proof.
  intros H.
  destruct s as [[[m lv lg] mx cv stp irq live cmx csi lfd cfd] th r c].
  cbv [fx_mmio_write fx_lower_irq] in H. run_in H. simpl in H. break_step H;
    simpl; rewrite ?Z.land_diag, ?land_subset; repeat split; auto.
Qed.

Lemma register_write_never_raises_witness :
  exists s',
    fx_mmio_write Iothread INTERRUPT_RAISE_REGISTER 0xffffffff 4 pending_msi_device
    = Some (tt, s')
    /\ Z.land (irq_status (fx s')) (irq_status (fx pending_msi_device))
       = irq_status (fx s')
    /\ msi_log (pdev (fx s')) = msi_log (pdev (fx pending_msi_device)).
Proof.
  eexists. split; [vm_compute; reflexivity|].
  destruct (register_write_never_raises Iothread INTERRUPT_RAISE_REGISTER
              0xffffffff 4 pending_msi_device _ ltac:(vm_compute; reflexivity))
    as (H1 & H2 & _).
  split; [exact H1 | exact H2].
Defined.

(** X20: a register write has to wait exactly when it is a 4-byte write
    to the start or the schedule-next register and [thr_mutex] is owned;
    the acknowledge write takes no lock and never waits. *)
Theorem only_rendezvous_writes_can_block (t : thread_id) (addr val size : Z) (s : Sys) :
  fx_mmio_write t addr val size s = None
  <-> (rendezvous_write addr size = true /\ thr_mutex (fx s) <> None).
Proof.
  destruct s as [[[m lv lg] mx cv stp irq live cmx csi lfd cfd] th r c].
  unfold rendezvous_write. cbv [fx_mmio_write fx_lower_irq]. run.
  cbn -[Z.eqb Z.land not32 u32].
  destruct (size =? 4), (addr =? START_THREAD_REGISTER),
    (addr =? SCHEDULE_NEXT_REGISTER), (addr =? INTERRUPT_RAISE_REGISTER),
    (addr =? INTERRUPT_ACK_REGISTER), mx;
    cbn -[Z.eqb Z.land not32 u32];
    try destruct ((Z.land irq (not32 (u32 val)) =? 0) && negb m);
    split; intros H;
    try discriminate H;
    try reflexivity;
    try (pose proof (proj1 H) as H1; discriminate H1);
    try (pose proof (proj2 H) as H2; congruence);
    try (split; [reflexivity | discriminate]).
Qed.

Lemma only_rendezvous_writes_can_block_witness :
  fx_mmio_write Iothread START_THREAD_REGISTER 0 4 pending_msi_device = None
  /\ rendezvous_write INTERRUPT_ACK_REGISTER 4 = false
  /\ fx_mmio_write Iothread INTERRUPT_ACK_REGISTER 1 4 pending_msi_device <> None.
Proof.
  split; [|split; [reflexivity|]].
  - apply (only_rendezvous_writes_can_block Iothread START_THREAD_REGISTER 0 4
             pending_msi_device).
    split; [reflexivity | vm_compute; discriminate].
  - intros H.
    apply (only_rendezvous_writes_can_block Iothread INTERRUPT_ACK_REGISTER 1 4
             pending_msi_device) in H.
    destruct H as [H _]. vm_compute in H. discriminate.
Defined.

(** ** Pacing *)

Lemma pace_inv_step (a : action) (s : Sys) (e : event) (s' : Sys) (past : list event) :
  pace_inv past s -> step a s = Some (e, s') -> pace_inv (e :: past) s'.
Proof.
  intros (Hp & Hs) H. unfold pace_inv in *.
  step_cases H; simpl in *;
    solve [repeat split; auto; try discriminate].
Qed.

Lemma pace_inv_plugged (msi : bool) (sock : Z) : pace_inv [] (plugged msi sock).
Proof. unfold pace_inv. simpl. split; [exact I | discriminate]. Qed.

Lemma paced_app (a b : list event) : paced (a ++ b) -> paced b.
Proof.
  induction a as [|e a IH]; simpl; intros H; [exact H|].
  destruct e; try (apply IH; exact H); apply IH; apply H.
Qed.

Lemma slept_split (past : list event) :
  slept past = true ->
  exists a i u b,
    past = a ++ EvSleep i u :: b /\ existsb is_raise a = false.
Proof.
  induction past as [|e past IH]; simpl; intros H; [discriminate|].
  destruct e as [ | ? | ? | i u | | | ? ? ? | ? ? ? | ? | ? | | | ];
    try discriminate;
    try (destruct (IH H) as (a & i0 & u0 & b & Hp & Hr);
         eexists (_ :: a), i0, u0, b; split; [rewrite Hp; reflexivity | exact Hr]).
  exists [], i, u, past. split; reflexivity.
Qed.

(** X21: in every execution every raise of the forcer thread comes after
    a [g_usleep] of the same cycle: there is a sleep before it with no
    other raise in between. *)
Theorem every_raise_follows_a_sleep
  (msi : bool) (sock : Z) (acts : list action) (tr : list event) (s : Sys)
  (t1 t2 : list event) :
  exec acts (plugged msi sock) = Some (tr, s) ->
  tr = t1 ++ EvRaise :: t2 ->
  exists t0 i u t,
    t1 = t0 ++ EvSleep i u :: t /\ existsb is_raise t = false.
Proof.
  intros He Htr.
  pose proof (exec_invariant pace_inv pace_inv_step acts (plugged msi sock) []
                tr s (pace_inv_plugged msi sock) He) as (Hp & _).
  rewrite app_nil_r in Hp. subst tr.
  rewrite rev_app_distr in Hp. simpl in Hp. rewrite <- app_assoc in Hp.
  apply paced_app in Hp. simpl in Hp. destruct Hp as [Hs _].
  destruct (slept_split _ Hs) as (a & i & u & b & Hab & Hr).
  exists (rev b), i, u, (rev a). split.
  - rewrite <- (rev_involutive t1), Hab, rev_app_distr. simpl.
    rewrite <- app_assoc. reflexivity.
  - rewrite existsb_reversed. exact Hr.
Qed.

Lemma every_raise_follows_a_sleep_witness :
  exists t0 i u t,
    [EvTau; EvTau; EvWrite 0x30 0 4; EvTau; EvTau; EvRandom 12345; EvTau;
     EvConfRead 10; EvTau; EvSleep 10 1002345; EvTau]
    = t0 ++ EvSleep i u :: t /\ existsb is_raise t = false.
Proof.
  eapply (every_raise_follows_a_sleep false 3 (firstn 13 two_cycles)
           ([EvTau; EvTau; EvWrite 0x30 0 4; EvTau; EvTau; EvRandom 12345; EvTau;
             EvConfRead 10; EvTau; EvSleep 10 1002345; EvTau] ++ EvRaise :: [EvTau])
           _ _ [EvTau]);
    [vm_compute; reflexivity | reflexivity].
Defined.

(** ** The raise and the acknowledge, when nothing comes in between *)

(** X22: when no other access comes in between, the five steps of the
    forcer thread from the call of line 203 to the wait of line 205 do to
    the device what [fx_raise_irq(fx, 0x1)] does in one piece. *)
Theorem uninterrupted_raise_is_fx_raise_irq (s : Sys) (r1 r2 r3 r4 r5 : Z) :
  pc (thr s) = L203 ->
  exists s' s'',
    exec [AForcer r1; AForcer r2; AForcer r3; AForcer r4; AForcer r5] s
    = Some ([EvRaise; EvTau; EvTau; EvTau; EvTau], s')
    /\ fx_raise_irq 0x1 s = Some (tt, s'')
    /\ fx s' = fx s''
    /\ io s' = io s''
    /\ access s' = access s''
    /\ pc (thr s') = L205.
Proof.
  intros Hpc.
  destruct s as [[[m lv lg] mx cv stp irq live cmx csi lfd cfd] [l iv bf ac] r c].
  simpl in Hpc. subst l.
  assert (Hnz : (Z.lor irq 1 =? 0) = false) by apply lor_one_nonzero.
  destruct m;
    (do 2 eexists; split;
     [ eapply exec_cons; [step_eq|];
       eapply exec_cons; [step_eq|];
       eapply exec_cons; [step_run; rewrite Hnz; reflexivity|];
       eapply exec_cons; [step_eq|];
       eapply exec_cons; [step_eq|]; apply exec_nil
     | split;
       [ cbv [fx_raise_irq]; run; cbn [fx irq_status with_irq_status];
         rewrite Hnz; reflexivity
       | repeat split ] ]).
Qed.

Lemma uninterrupted_raise_is_fx_raise_irq_witness :
  exists s' s'',
    exec [AForcer 0; AForcer 0; AForcer 0; AForcer 0; AForcer 0] pending_msi_device
    = Some ([EvRaise; EvTau; EvTau; EvTau; EvTau], s')
    /\ fx_raise_irq 0x1 pending_msi_device = Some (tt, s'')
    /\ fx s' = fx s''
    /\ io s' = io s''
    /\ access s' = access s''
    /\ pc (thr s') = L205.
Proof.
  apply (uninterrupted_raise_is_fx_raise_irq pending_msi_device 0 0 0 0 0).
  reflexivity.
Defined.

(** X23: when nothing else touches the mask in between, an acknowledge
    write and the two or three statements of [fx_lower_irq] that follow
    its load do to the device what the write does in one piece. *)
Theorem uninterrupted_ack_is_fx_lower_irq (s : Sys) (val : Z) :
  mapped s = true ->
  apc (access s) = AIdle ->
  exists n tr s' s'',
    (2 <= n <= 3)%nat
    /\ exec (AMmioWrite INTERRUPT_ACK_REGISTER val 4 :: repeat AAccess n) s
       = Some (tr, s')
    /\ apc (access s') = AIdle
    /\ fx_mmio_write Iothread INTERRUPT_ACK_REGISTER (u64 val) 4 s = Some (tt, s'')
    /\ fx s' = fx s''
    /\ thr s' = thr s''
    /\ io s' = io s''.
Proof.
  intros Hm Hi.
  destruct s as [[[m lv lg] mx cv stp irq live cmx csi lfd cfd] t [ph hs fds] [al av ar]].
  simpl in Hi. subst al.
  assert (Hph : match ph with Realized | U325 | U326 => true | _ => false end = true)
    by exact Hm.
  destruct (Z.land irq (not32 (u32 (u64 val))) =? 0) eqn:E; destruct m.
  - exists 2%nat. do 3 eexists. split; [lia|]. split.
    + cbn [repeat].
      eapply exec_cons; [step_run; rewrite Hph; reflexivity|].
      eapply exec_cons; [step_eq|].
      eapply exec_cons; [step_run; rewrite E; reflexivity|]. apply exec_nil.
    + split; [reflexivity|]. split.
      * cbv [fx_mmio_write fx_lower_irq]. run. decide_tests.
        cbn [fx irq_status with_irq_status pdev msi_on]. rewrite E. reflexivity.
      * repeat split.
  - exists 3%nat. do 3 eexists. split; [lia|]. split.
    + cbn [repeat].
      eapply exec_cons; [step_run; rewrite Hph; reflexivity|].
      eapply exec_cons; [step_eq|].
      eapply exec_cons; [step_run; rewrite E; reflexivity|].
      eapply exec_cons; [step_eq|]. apply exec_nil.
    + split; [reflexivity|]. split.
      * cbv [fx_mmio_write fx_lower_irq]. run. decide_tests.
        cbn [fx irq_status with_irq_status pdev msi_on]. rewrite E. reflexivity.
      * repeat split.
  - exists 2%nat. do 3 eexists. split; [lia|]. split.
    + cbn [repeat].
      eapply exec_cons; [step_run; rewrite Hph; reflexivity|].
      eapply exec_cons; [step_eq|].
      eapply exec_cons; [step_run; rewrite E; reflexivity|]. apply exec_nil.
    + split; [reflexivity|]. split.
      * cbv [fx_mmio_write fx_lower_irq]. run. decide_tests.
        cbn [fx irq_status with_irq_status pdev msi_on]. rewrite E. reflexivity.
      * repeat split.
  - exists 2%nat. do 3 eexists. split; [lia|]. split.
    + cbn [repeat].
      eapply exec_cons; [step_run; rewrite Hph; reflexivity|].
      eapply exec_cons; [step_eq|].
      eapply exec_cons; [step_run; rewrite E; reflexivity|]. apply exec_nil.
    + split; [reflexivity|]. split.
      * cbv [fx_mmio_write fx_lower_irq]. run. decide_tests.
        cbn [fx irq_status with_irq_status pdev msi_on]. rewrite E. reflexivity.
      * repeat split.
Qed.

Lemma uninterrupted_ack_is_fx_lower_irq_witness :
  exists n tr s' s'',
    (2 <= n <= 3)%nat
    /\ exec (AMmioWrite INTERRUPT_ACK_REGISTER 1 4 :: repeat AAccess n)
         pending_msi_device
       = Some (tr, s')
    /\ apc (access s') = AIdle
    /\ fx_mmio_write Iothread INTERRUPT_ACK_REGISTER (u64 1) 4 pending_msi_device
       = Some (tt, s'')
    /\ fx s' = fx s''
    /\ thr s' = thr s''
    /\ io s' = io s''.
Proof.
  apply (uninterrupted_ack_is_fx_lower_irq pending_msi_device 1);
    reflexivity.
Defined.

(** X24: with level-style signaling an acknowledge write that overlaps a
    raise can take the line down after the raise has put it up: the
    device is left with cause bit 0 pending and the line low, the forcer
    thread in the wait of line 205 and no access in flight. *)
Theorem late_deassert_hides_pending_cause :
  exists tr s,
    exec raise_races_ack (plugged false 3) = Some (tr, s)
    /\ raises tr = 1%nat
    /\ irq_status (fx s) = 1
    /\ intx_level (pdev (fx s)) = 0
    /\ pc (thr s) = L205w
    /\ waiting Forcer (fx s) = true
    /\ apc (access s) = AIdle.
Proof.
  do 2 eexists. split; [vm_compute; reflexivity|]. repeat split.
Qed.
